(** * AirTrans: multi-port file transfer, session service and peer discovery

    A shallow embedding of the Python sources

    - [api/utils.py]     (module [Utils]):     chunk split, checksums, descriptor validation
    - [api/apitran.py]   (module [Apitran]):   parallel TCP sender and receiver
    - [api/app.py]       (module [App]):       HTTP session service
    - [api/discovery.py] (module [Discovery]): peer tables

    Python values are modelled as follows.  [bytes] is [list byte]; a
    non-negative size or index is a [nat]; an integer that may be negative
    (anything read from JSON) is a [Z]; a [dict] is a [gmap], except inside
    JSON values where it is an association list; an exception is a value
    of [exn], and a function that can raise returns an [outcome].  State
    that survives an exception (the receiver object, the file system, the
    session table) is threaded explicitly.

    Left out throughout: logging, and the wall-clock statistics that the
    sender and the receiver compute for their log lines and for the
    [elapsed] and speed entries of their results. *)

From stdpp Require Import gmap strings list fin_maps pretty.
From Stdlib Require Import ZArith QArith.
From Stdlib.Strings Require Import Byte.
Close Scope Q_scope.
Open Scope nat_scope.

(** ** Python preliminaries *)

Inductive exn : Type :=
| ZeroDivisionError
| KeyError
| TypeError
| AttributeError
| OverflowError
| ValueError (msg : string)
| FileNotFoundError
| ConnectionRefusedError
| IncompleteReadError
| UnpackException.

Inductive outcome (A : Type) : Type :=
| Return (a : A)
| Raised (e : exn).
Arguments Return {A} a.
Arguments Raised {A} e.

(** A computation over a mutable state [S]: the state is returned in both
    cases, because what was mutated before an exception stays mutated. *)
Definition M (S A : Type) : Type := S → outcome A * S.

Definition ret {S A} (a : A) : M S A := λ s, (Return a, s).
Definition bind {S A B} (m : M S A) (k : A → M S B) : M S B :=
  λ s, match m s with
       | (Return a, s') => k a s'
       | (Raised e, s') => (Raised e, s')
       end.
Definition modify {S} (f : S → S) : M S unit := λ s, (Return tt, f s).

(** [for x in xs: body x], stopping at the first exception. *)
Fixpoint for_each {S A} (xs : list A) (body : A → M S unit) : M S unit :=
  match xs with
  | [] => ret tt
  | x :: xs' => bind (body x) (λ _, for_each xs' body)
  end.

(** [l[start:stop]] for non-negative [start], [stop]: indices are clipped
    to the length, and an empty range gives the empty list. *)
Definition py_slice {A} (l : list A) (start stop : nat) : list A :=
  take (stop - start) (drop start l).

(** A file opened for reading is the list of bytes after the current
    position; [f.read(n)] returns at most [n] of them and advances. *)
Definition file_read (f : list byte) (n : nat) : list byte * list byte :=
  (take n f, drop n f).

(** [hashlib.sha256(data).hexdigest()].  The digest function is a
    parameter of the development. *)
Class Hashlib := sha256 : list byte → string.

(** The file system: path to contents. *)
Abbreviation filesystem := (gmap string (list byte)).

(** *** JSON values as Python sees them

    What [request.get_json()] returns: [None], [bool], [int], [str],
    [list] and [dict] with string keys.  A dictionary is an association
    list in which the first binding of a key is the one that counts.
    JSON numbers with a fraction (Python [float]) are outside this
    model. *)

#[local] Set Warnings "-register-all".
Inductive json : Type :=
| JNull
| JBool (b : bool)
| JInt (z : Z)
| JStr (s : string)
| JList (l : list json)
| JDict (d : list (string * json)).
#[local] Set Warnings "register-all".

Fixpoint dict_get (d : list (string * json)) (k : string) : option json :=
  match d with
  | [] => None
  | (k', v) :: d => if String.eqb k' k then Some v else dict_get d k
  end.

(** [a == b].  [True == 1] and [False == 0]; lists compare element by
    element; dictionaries compare as maps. *)
Fixpoint py_eq (a b : json) {struct a} : bool :=
  match a, b with
  | JNull, JNull => true
  | JBool x, JBool y => Bool.eqb x y
  | JBool x, JInt z | JInt z, JBool x => (z =? Z.b2z x)%Z
  | JInt x, JInt y => (x =? y)%Z
  | JStr x, JStr y => String.eqb x y
  | JList xs, JList ys =>
    (fix go (xs ys : list json) {struct xs} : bool :=
       match xs, ys with
       | [], [] => true
       | x :: xs, y :: ys => py_eq x y && go xs ys
       | _, _ => false
       end) xs ys
  | JDict d, JDict e =>
    forallb (λ kv, bool_decide (is_Some (dict_get d kv.1))) e &&
    (fix go (seen : list string) (d : list (string * json)) {struct d} : bool :=
       match d with
       | [] => true
       | (k, v) :: d =>
         (if bool_decide (k ∈ seen) then true
          else match dict_get e k with
               | Some w => py_eq v w
               | None => false
               end) && go (k :: seen) d
       end) [] d
  | _, _ => false
  end.


(** [v is None] *)
Definition is_none (v : json) : bool :=
  match v with
  | JNull => true
  | _ => false
  end.

(** The number a value stands for in arithmetic and ordering. *)
Definition as_int (v : json) : option Z :=
  match v with
  | JInt z => Some z
  | JBool b => Some (Z.b2z b)
  | _ => None
  end.

Fixpoint is_substring (p s : string) : bool :=
  String.prefix p s ||
  match s with
  | EmptyString => false
  | String _ s' => is_substring p s'
  end.

(** [key in container] for a string [key] *)
Definition py_in (key : string) (container : json) : outcome bool :=
  match container with
  | JDict d => Return (bool_decide (is_Some (dict_get d key)))
  | JList l => Return (existsb (py_eq (JStr key)) l)
  | JStr s => Return (is_substring key s)
  | _ => Raised TypeError
  end.

(** [container[key]] for a string [key] *)
Definition py_getitem (container : json) (key : string) : outcome json :=
  match container with
  | JDict d => match dict_get d key with
               | Some v => Return v
               | None => Raised KeyError
               end
  | _ => Raised TypeError
  end.

(** [data.get(key)] *)
Definition py_get (data : json) (key : string) : outcome json :=
  match data with
  | JDict d => Return (default JNull (dict_get d key))
  | _ => Raised AttributeError
  end.

(** Dictionary keys: [None], integers (with [True] and [False] the same
    keys as [1] and [0]) and strings are hashable, lists and dictionaries
    are not. *)
Inductive pykey : Type :=
| KNone
| KInt (z : Z)
| KStr (s : string).

#[global] Instance pykey_eq_dec : EqDecision pykey.
Proof. solve_decision. Defined.

#[global] Instance pykey_countable : Countable pykey.
Proof.
  refine (inj_countable'
    (λ k, match k with
          | KNone => inl ()
          | KInt z => inr (inl z)
          | KStr s => inr (inr s)
          end)
    (λ x, match x with
          | inl () => KNone
          | inr (inl z) => KInt z
          | inr (inr s) => KStr s
          end) _).
  by intros [].
Defined.

Definition to_key (v : json) : outcome pykey :=
  match v with
  | JNull => Return KNone
  | JBool b => Return (KInt (Z.b2z b))
  | JInt z => Return (KInt z)
  | JStr s => Return (KStr s)
  | JList _ | JDict _ => Raised TypeError
  end.

(** [sum(d.values())]: starts from [0] and adds each value; a value that
    is not a number raises [TypeError]. *)
Definition py_sum (d : gmap pykey json) : outcome Z :=
  map_fold (λ _ v acc,
              match acc, as_int v with
              | Return a, Some z => Return (a + z)%Z
              | Raised e, _ => Raised e
              | _, None => Raised TypeError
              end)
           (Return 0%Z) d.

(** ** api/utils.py *)

Module Utils.
Section utils.
Context `{Hashlib}.

(** The size both read loops ask for at iteration [i]: "last chunk gets
    any remaining bytes". *)
Definition current_chunk_size (filesize chunk_size num_parts i : nat) : nat :=
  if i =? num_parts - 1
  then filesize - chunk_size * (num_parts - 1)
  else chunk_size.

(** [FileChunker.split_file].  [chunk_path i] stands for
    [output_dir / f"{filepath.stem}.part{i:04d}"]; the state of the loop
    is the read position of [infile], the file system and
    [chunk_paths]. *)
Definition split_file_body (chunk_path : nat → string)
    (filesize chunk_size num_parts : nat)
    (st : list byte * filesystem * list string) (i : nat)
    : list byte * filesystem * list string :=
  let '(infile, fs, chunk_paths) := st in
  let '(chunk_data, infile') :=
    file_read infile (current_chunk_size filesize chunk_size num_parts i) in
  (infile', <[chunk_path i := chunk_data]> fs, chunk_paths ++ [chunk_path i]).

Definition split_file (chunk_path : nat → string) (filedata : list byte)
    (num_parts : nat) : M filesystem (list string) := λ fs,
  let filesize := length filedata in
  if num_parts =? 0 then (Raised ZeroDivisionError, fs) else
  let chunk_size := filesize / num_parts in
  let '(_, fs', chunk_paths) :=
    foldl (split_file_body chunk_path filesize chunk_size num_parts)
          (filedata, fs, []) (seq 0 num_parts) in
  (Return chunk_paths, fs').

(** [ChecksumManager.calculate_chunk_checksums] *)
Definition chunk_checksums_body (filesize chunk_size num_parts : nat)
    (st : list byte * list string) (i : nat) : list byte * list string :=
  let '(f, checksums) := st in
  let '(chunk_data, f') :=
    file_read f (current_chunk_size filesize chunk_size num_parts i) in
  (f', checksums ++ [sha256 chunk_data]).

Definition calculate_chunk_checksums (filedata : list byte)
    (num_parts : nat) : outcome (list string) :=
  let filesize := length filedata in
  if num_parts =? 0 then Raised ZeroDivisionError else
  let chunk_size := filesize / num_parts in
  let '(_, checksums) :=
    foldl (chunk_checksums_body filesize chunk_size num_parts)
          (filedata, []) (seq 0 num_parts) in
  Return checksums.

(** [ChecksumManager.calculate_file_checksum] with the default
    algorithm.  [disk filepath] is what [open(filepath, 'rb')] gives:
    the contents of the file, or the exception it raises.  The hash
    object is the sequence of bytes it has been fed; the loop
    [for chunk in iter(lambda: f.read(8192), b'')] needs at most one
    iteration per byte plus one (lemma [hash_blocks_all]). *)
Definition read_buffer : nat := 8 * 1024.

Fixpoint hash_blocks (fuel : nat) (f hash_obj : list byte) : list byte :=
  match fuel with
  | 0 => hash_obj
  | S fuel =>
    let '(chunk, f) := file_read f read_buffer in
    match chunk with
    | [] => hash_obj
    | _ :: _ => hash_blocks fuel f (hash_obj ++ chunk)
    end
  end.

Definition calculate_file_checksum (disk : json → outcome (list byte))
    (filepath : json) : outcome string :=
  match disk filepath with
  | Raised e => Raised e
  | Return data => Return (sha256 (hash_blocks (S (length data)) data []))
  end.





End utils.

(** *** Chunk files, descriptors and size helpers

    [pathlib] enters through two functions: [str(Path(s))] for a string
    [s], and [p.name] for a path [p].  A path is identified with the
    string [str] gives for it, so that [Path(str(p))] is [p] again. *)
Import Stdlib.Strings.Ascii.

Class PurePath := {
  path_str : string → string;
  path_name : string → string
}.

(** [[f x for x in l]] for an [f] that can raise: the first exception
    ends the comprehension. *)
Fixpoint traverse {A B} (f : A → outcome B) (l : list A) : outcome (list B) :=
  match l with
  | [] => Return []
  | x :: l =>
    match f x with
    | Raised e => Raised e
    | Return y =>
      match traverse f l with
      | Raised e => Raised e
      | Return ys => Return (y :: ys)
      end
    end
  end.

(** [f"{i:04d}"]: the decimal digits of [i], filled with zeros on the
    left up to four characters. *)
Definition format_04d (i : nat) : string :=
  let digits := pretty i in
  String.string_of_list_ascii (replicate (4 - String.length digits) "0"%char)
  +:+ digits.

Definition is_digit (c : ascii) : Prop :=
  c ∈ ["0"; "1"; "2"; "3"; "4"; "5"; "6"; "7"; "8"; "9"]%char.

(** The name [split_file] gives chunk [i] of a file with stem [stem]. *)
Definition chunk_name (stem : string) (i : nat) : string :=
  stem +:+ ".part" +:+ format_04d i.

(** [name.endswith(suffix)].  A name matches the pattern ["*" + suffix],
    for a [suffix] without wildcards, exactly when it ends with it. *)
Definition endswith (name suffix : string) : bool :=
  bool_decide (String.list_ascii_of_string suffix
               `suffix_of` String.list_ascii_of_string name).

(** A directory as the operating system lists it: the names of its
    files with their contents, in the order of the listing.  [is_listing]
    ties it to a file system in which the path of entry [name] of [dir]
    is [join dir name]. *)
Definition directory : Type := list (string * list byte).

Definition is_listing (join : string → string → string) (fs : filesystem)
    (dir : string) (entries : directory) : Prop :=
  ∀ name data, (name, data) ∈ entries ↔ fs !! join dir name = Some data.

(** [chunk_dir.glob(f"*.part{i:04d}")] *)
Definition glob_part (chunk_dir : directory) (i : nat) : directory :=
  filter (λ entry, Is_true (endswith entry.1 (".part" +:+ format_04d i)))
         chunk_dir.

(** [FileChunker.merge_chunks].  The state is the contents of the file
    opened at [output_filepath], which ['wb'] creates or empties; that
    file is taken to lie outside [chunk_dir]. *)
Definition merge_chunk (chunk_dir : directory) (i : nat) : M (list byte) unit :=
  λ outfile,
  match glob_part chunk_dir i with
  | [] => (Raised FileNotFoundError, outfile)
  | (chunk_path, chunk_data) :: _ => (Return tt, outfile ++ chunk_data)
  end.

Definition merge_chunks (chunk_dir : directory) (num_parts : nat)
    : outcome unit * list byte :=
  for_each (seq 0 num_parts) (merge_chunk chunk_dir) [].

(** [calculate_optimal_chunks]; [//] is floor division, as [Z.div] is. *)
Definition calculate_optimal_chunks (filesize target_chunk_size : Z)
    : outcome Z :=
  if (target_chunk_size =? 0)%Z then Raised ZeroDivisionError
  else Return (Z.max 1 (Z.min 32 (filesize / target_chunk_size))).

Section descriptors.
Context `{Hashlib, PurePath}.

(** [calculate_chunk_checksums] called with any JSON value for
    [num_parts]: [filesize // num_parts] raises for a value that is not
    a number and for zero, and [range(num_parts)] is empty for a
    negative number. *)
Definition calculate_chunk_checksums_of (filedata : list byte)
    (num_parts : json) : outcome (list string) :=
  match as_int num_parts with
  | None => Raised TypeError
  | Some n =>
    if (n =? 0)%Z then Raised ZeroDivisionError
    else if (n <? 0)%Z then Return []
    else calculate_chunk_checksums filedata (Z.to_nat n)
  end.

(** [TransferMetadata.create_metadata].  [disk] is a file system of
    readable regular files: [stat] fails exactly when [open] does, and
    [st_size] is the length of the contents. *)
Definition create_metadata (disk : json → outcome (list byte))
    (filepath ip : string) (ports num_parts use_compression : json)
    : outcome json :=
  match disk (JStr filepath) with
  | Raised e => Raised e
  | Return filedata =>
    let filesize := length filedata in
    match calculate_file_checksum disk (JStr filepath) with
    | Raised e => Raised e
    | Return checksum =>
      match calculate_chunk_checksums_of filedata num_parts with
      | Raised e => Raised e
      | Return chunk_checksums =>
        Return (JDict [("filename", JStr (path_name filepath));
                       ("filesize", JInt (Z.of_nat filesize));
                       ("ip", JStr ip);
                       ("ports", ports);
                       ("num_parts", num_parts);
                       ("checksum", JStr checksum);
                       ("chunk_checksums", JList (JStr <$> chunk_checksums));
                       ("compression", use_compression);
                       ("version", JStr "1.0")])
      end
    end
  end.

End descriptors.
End Utils.

(** ** api/apitran.py *)

Module Apitran.

Definition block_size : nat := 1024 * 1024.
Arguments block_size : simpl never.

(** The dictionary that [send_file] returns and that the receiver is
    constructed from (its [elapsed] and [avg_speed_mbps] entries are
    wall-clock statistics and are left out). *)
Record Descriptor := {
  filename : string;
  filesize : nat;
  ports : list Z;
  num_parts : nat;
  checksum : string
}.

(** [TransferSession]: the five constructor arguments are kept together
    in [info]; [progress] starts as [{i: 0 for i in range(num_parts)}]. *)
Record TransferSession := {
  info : Descriptor;
  progress : gmap nat nat;
  bytes_transferred : nat
}.

Definition TransferSession_init (d : Descriptor) : TransferSession :=
  {| info := d;
     progress := list_to_map ((λ i, (i, 0)) <$> seq 0 (num_parts d));
     bytes_transferred := 0 |}.

(** What a task records after moving a block: [bytes_transferred += n]
    and [progress[chunk_id] = done]. *)
Definition note_block (chunk_id done n : nat) (s : TransferSession)
    : TransferSession :=
  {| info := info s;
     progress := <[chunk_id := done]> (progress s);
     bytes_transferred := bytes_transferred s + n |}.

(** The preamble of a stream: the dictionary with keys [chunk_id],
    [size] and [checksum]. *)
Record ChunkMeta := {
  meta_chunk_id : Z;
  meta_size : Z;
  meta_checksum : string
}.

(** [msgpack.packb] on a preamble, and [msgpack.unpackb] followed by the
    lookups of ['size'] and ['checksum'] on the receiving side; each can
    raise.  The codec is a parameter of the development. *)
Class Msgpack := {
  packb : ChunkMeta → outcome (list byte);
  unpackb : list byte → outcome ChunkMeta
}.

(** [pathlib]'s [output_dir / filename]. *)
Class Pathlib := path_join : string → string → string.

(** [n.to_bytes(4, 'big')] and [int.from_bytes(b, 'big')] *)
Definition byte_of_N (n : N) : byte := default x00 (Byte.of_N (n mod 256)).

Definition to_bytes4 (n : nat) : outcome (list byte) :=
  let n := N.of_nat n in
  if (n <? 2 ^ 32)%N
  then Return [byte_of_N (n / 2 ^ 24); byte_of_N (n / 2 ^ 16);
               byte_of_N (n / 2 ^ 8); byte_of_N n]
  else Raised OverflowError.

Definition from_bytes (b : list byte) : nat :=
  N.to_nat (foldl (λ acc x, acc * 256 + Byte.to_N x)%N 0%N b).

(** [range(0, stop, step)] for a positive [step] *)
Definition range_step (stop step : nat) : list nat :=
  (λ k, k * step) <$> seq 0 ((stop + step - 1) / step).

Section apitran.
Context `{Hashlib, Msgpack, Pathlib}.

(** *** Sender *)

Record AirTransSender := {
  snd_name : string;            (* filepath.name *)
  snd_file : list byte;         (* the bytes stored at filepath *)
  snd_num_parts : nat;
  snd_base_port : Z;
  snd_ports : list Z;
  snd_filesize : nat;
  snd_session : option TransferSession
}.

(** [base_port + i] *)
Definition port_of (base_port : Z) (i : nat) : Z := (base_port + Z.of_nat i)%Z.

Definition AirTransSender_init (name : string) (file : list byte)
    (num_parts : nat) (base_port : Z) : AirTransSender :=
  {| snd_name := name;
     snd_file := file;
     snd_num_parts := num_parts;
     snd_base_port := base_port;
     snd_ports := port_of base_port <$> seq 0 num_parts;
     snd_filesize := length file;
     snd_session := None |}.

(** The chunk list built by [send_file] (lines 104-110): [chunk_size]
    is [filesize // num_parts] and the last chunk runs to [filesize]. *)
Definition split_chunks (file_data : list byte) (filesize num_parts : nat)
    : list (list byte) :=
  let chunk_size := filesize / num_parts in
  (λ i, let start := i * chunk_size in
        let stop := if i <? num_parts - 1 then start + chunk_size
                    else filesize in
        py_slice file_data start stop) <$> seq 0 num_parts.

(** One [send_chunk] task: a server on [port] whose handler serves
    [chunk_data] as chunk [chunk_id]. *)
Record Listener := {
  l_chunk_data : list byte;
  l_port : Z;
  l_chunk_id : nat
}.

(** [enumerate(zip(chunks, self.ports))], one [send_chunk] task each *)
Definition send_tasks (chunks : list (list byte)) (ports : list Z)
    : list Listener :=
  imap (λ i '(chunk, port),
          {| l_chunk_data := chunk; l_port := port; l_chunk_id := i |})
       (zip chunks ports).

(** [send_file], up to the point where the servers run: the descriptor
    it will return and the listeners it has started. *)
Definition send_file : M AirTransSender (Descriptor * list Listener) := λ s,
  let file_data := snd_file s in
  let file_checksum := sha256 file_data in
  if snd_num_parts s =? 0 then (Raised ZeroDivisionError, s) else
  let chunks := split_chunks file_data (snd_filesize s) (snd_num_parts s) in
  let d := {| filename := snd_name s; filesize := snd_filesize s;
              ports := snd_ports s; num_parts := snd_num_parts s;
              checksum := file_checksum |} in
  let session := TransferSession_init d in
  let tasks := send_tasks chunks (snd_ports s) in
  (Return (d, tasks),
   {| snd_name := snd_name s; snd_file := snd_file s;
      snd_num_parts := snd_num_parts s; snd_base_port := snd_base_port s;
      snd_ports := snd_ports s; snd_filesize := snd_filesize s;
      snd_session := Some session |}).

(** What [_handle_client] does to one connection.  An exception is
    caught and logged by the handler: nothing has been written by then
    and the connection is not closed. *)
Inductive served :=
| Sent (wire : list byte)       (* bytes written, then the stream is closed *)
| Aborted (e : exn).

Definition write_block (chunk_data : list byte) (chunk_id i : nat)
    : M (list byte * TransferSession) unit :=
  let block := py_slice chunk_data i (i + block_size) in
  modify (λ '(writer, session),
    (writer ++ block,
     note_block chunk_id (i + length block) (length block) session)).

Definition write_blocks (chunk_data : list byte) (chunk_id : nat)
    : M (list byte * TransferSession) unit :=
  for_each (range_step (length chunk_data) block_size)
    (write_block chunk_data chunk_id).

Definition chunk_metadata (chunk_data : list byte) (chunk_id : nat)
    : ChunkMeta :=
  {| meta_chunk_id := Z.of_nat chunk_id;
     meta_size := Z.of_nat (length chunk_data);
     meta_checksum := sha256 chunk_data |}.

Definition _handle_client (chunk_data : list byte) (chunk_id : nat)
    (session : TransferSession) : served * TransferSession :=
  let metadata := chunk_metadata chunk_data chunk_id in
  match packb metadata with
  | Raised e => (Aborted e, session)
  | Return packed_meta =>
    match to_bytes4 (length packed_meta) with
    | Raised e => (Aborted e, session)
    | Return len4 =>
      let '(_, (writer, session')) :=
        write_blocks chunk_data chunk_id (len4 ++ packed_meta, session) in
      (Sent writer, session')
    end
  end.

(** *** Receiver *)

Record AirTransReceiver := {
  metadata : Descriptor;
  output_dir : string;
  chunks : gmap nat (list byte);
  session : TransferSession
}.

Definition AirTransReceiver_init (metadata : Descriptor) (output_dir : string)
    : AirTransReceiver :=
  {| metadata := metadata; output_dir := output_dir; chunks := ∅;
     session := TransferSession_init metadata |}.

(** A [StreamReader] over a stream that the peer closes after [buffer].
    [avail] is the network's schedule: its k-th entry bounds how many
    bytes the k-th call of [read] finds in the buffer; once it is used
    up everything has arrived. *)
Record Reader := {
  buffer : list byte;
  avail : list nat
}.

Definition readexactly (n : nat) (r : Reader) : outcome (list byte) * Reader :=
  if length (buffer r) <? n
  then (Raised IncompleteReadError, {| buffer := []; avail := avail r |})
  else (Return (take n (buffer r)),
        {| buffer := drop n (buffer r); avail := avail r |}).

(** [reader.read(n)]: at least one byte unless the stream is at EOF, at
    most [n], and no more than what has arrived. *)
Definition read (n : nat) (r : Reader) : list byte * Reader :=
  let k := match avail r with
           | [] => n
           | a :: _ => Nat.min n (Nat.max 1 a)
           end in
  (take k (buffer r), {| buffer := drop k (buffer r); avail := tail (avail r) |}).

(** What [open_connection] gives task [i]. *)
Inductive connection :=
| Refused
| Connected (stream : list byte) (avail : list nat).

Definition with_session (f : TransferSession → TransferSession)
    (rv : AirTransReceiver) : AirTransReceiver :=
  {| metadata := metadata rv; output_dir := output_dir rv;
     chunks := chunks rv; session := f (session rv) |}.

Definition store_chunk (chunk_id : nat) (chunk_data : list byte)
    (rv : AirTransReceiver) : AirTransReceiver :=
  {| metadata := metadata rv; output_dir := output_dir rv;
     chunks := <[chunk_id := chunk_data]> (chunks rv); session := session rv |}.

(** The [while bytes_received < chunk_size] loop of [receive_chunk].
    Every iteration that does not leave the loop takes at least one byte
    from the reader, so [S (length (buffer r))] iterations are enough
    (lemma [read_chunk_fuel]). *)
Fixpoint read_chunk (fuel : nat) (chunk_size : Z) (chunk_id : nat)
    (r : Reader) (chunk_data : list byte) (bytes_received : nat)
    (rv : AirTransReceiver) : list byte * AirTransReceiver :=
  match fuel with
  | 0 => (chunk_data, rv)
  | S fuel =>
    if (Z.of_nat bytes_received <? chunk_size)%Z then
      let '(block, r) := read block_size r in
      match block with
      | [] => (chunk_data, rv)
      | _ :: _ =>
        let bytes_received := bytes_received + length block in
        read_chunk fuel chunk_size chunk_id r (chunk_data ++ block)
          bytes_received
          (with_session (note_block chunk_id bytes_received (length block)) rv)
      end
    else (chunk_data, rv)
  end.

(** "Read metadata" (lines 165-171): the length prefix, the packed
    preamble and its decoding. *)
Definition read_preamble (reader : Reader) : outcome ChunkMeta * Reader :=
  match readexactly 4 reader with
  | (Raised e, reader) => (Raised e, reader)
  | (Return b4, reader) =>
    let meta_len := from_bytes b4 in
    match readexactly meta_len reader with
    | (Raised e, reader) => (Raised e, reader)
    | (Return meta_data, reader) => (unpackb meta_data, reader)
    end
  end.

Definition receive_chunk (conn : connection) (chunk_id : nat)
    : M AirTransReceiver unit := λ rv,
  match conn with
  | Refused => (Raised ConnectionRefusedError, rv)
  | Connected stream av =>
    match read_preamble {| buffer := stream; avail := av |} with
    | (Raised e, _) => (Raised e, rv)
    | (Return metadata, reader) =>
      let chunk_size := meta_size metadata in
      let chunk_checksum := meta_checksum metadata in
      let '(chunk_data, rv) :=
        read_chunk (S (length (buffer reader))) chunk_size chunk_id
          reader [] 0 rv in
      let received_checksum := sha256 chunk_data in
      if bool_decide (received_checksum ≠ chunk_checksum)
      then (Raised (ValueError
               ("Chunk " +:+ pretty chunk_id +:+ " checksum mismatch!")), rv)
      else (Return tt, store_chunk chunk_id chunk_data rv)
    end
  end.

(** [asyncio.gather(tasks)]: the tasks finish in the order [order]
    (indices into [tasks]); the first exception is propagated to the
    caller at once. *)
Definition gather {S} (tasks : list (M S unit)) (order : list nat) : M S unit :=
  for_each order (λ i, default (ret tt) (tasks !! i)).

Definition on_receiver {A} (m : M AirTransReceiver A)
    : M (AirTransReceiver * filesystem) A := λ '(rv, fs),
  let '(a, rv) := m rv in (a, (rv, fs)).

(** [f.write(self.chunks[i])] on the file opened at [output_path] *)
Definition write_chunk (output_path : string) (i : nat)
    : M (AirTransReceiver * filesystem) unit := λ '(rv, fs),
  match chunks rv !! i with
  | None => (Raised KeyError, (rv, fs))
  | Some chunk => (Return tt, (rv, alter (λ f, f ++ chunk) output_path fs))
  end.

(** [receive_file].  [net i] is the connection that task [i] obtains
    from [(sender_ip, ports[i])]. *)
Definition receive_tasks (net : nat → connection) (ports : list Z)
    : list (M (AirTransReceiver * filesystem) unit) :=
  imap (λ i (port : Z), on_receiver (receive_chunk (net i) i)) ports.

Definition receive_file (net : nat → connection) (order : list nat)
    : M (AirTransReceiver * filesystem) string := λ '(rv, fs),
  let tasks := receive_tasks net (ports (metadata rv)) in
  match gather tasks order (rv, fs) with
  | (Raised e, st) => (Raised e, st)
  | (Return _, (rv, fs)) =>
    let output_path := path_join (output_dir rv) (filename (metadata rv)) in
    let fs := <[output_path := []]> fs in
    match for_each (seq 0 (num_parts (metadata rv))) (write_chunk output_path)
            (rv, fs) with
    | (Raised e, st) => (Raised e, st)
    | (Return _, (rv, fs)) =>
      let file_checksum := sha256 (default [] (fs !! output_path)) in
      if bool_decide (file_checksum ≠ checksum (metadata rv))
      then (Raised (ValueError "Final file checksum mismatch!"), (rv, fs))
      else (Return output_path, (rv, fs))
    end
  end.

(** *** Sender and receiver joined by the network

    Task [i] of the receiver reaches the listener bound to [ports[i]];
    what it reads is what that listener's handler wrote.  A handler that
    aborted leaves the receiver blocked for ever: such a run has no
    outcome. *)
Definition connect (listeners : list Listener) (session : TransferSession)
    (port : Z) (av : list nat) : option connection :=
  match list_find (λ l, l_port l = port) listeners with
  | None => Some Refused
  | Some (_, l) =>
    match _handle_client (l_chunk_data l) (l_chunk_id l) session with
    | (Sent wire, _) => Some (Connected wire av)
    | (Aborted _, _) => None
    end
  end.

Definition network (listeners : list Listener) (session : TransferSession)
    (ports : list Z) (avs : nat → list nat) : option (list connection) :=
  mapM (λ '(i, port), connect listeners session port (avs i))
       (imap (λ i port, (i, port)) ports).

Definition transfer (name : string) (file : list byte) (num_parts : nat)
    (base_port : Z)
    (output_dir : string) (avs : nat → list nat) (order : list nat)
    (fs : filesystem)
    : option (outcome string * (AirTransReceiver * filesystem)) :=
  match send_file (AirTransSender_init name file num_parts base_port) with
  | (Raised _, _) => None
  | (Return (d, listeners), sender) =>
    let session := default (TransferSession_init d) (snd_session sender) in
    conns ← network listeners session (ports d) avs;
    Some (receive_file (λ i, default Refused (conns !! i)) order
            (AirTransReceiver_init d output_dir, fs))
  end.

(** What the round trip needs of the codec: each preamble that the
    sender builds can be packed, fits the 4-byte length prefix and
    unpacks to itself. *)
Definition codec_ok (file : list byte) (num_parts : nat) : Prop :=
  ∀ i chunk, split_chunks file (length file) num_parts !! i = Some chunk →
    ∃ packed, packb (chunk_metadata chunk i) = Return packed ∧
              (N.of_nat (length packed) < 2 ^ 32)%N ∧
              unpackb packed = Return (chunk_metadata chunk i).

End apitran.
End Apitran.

(** ** api/app.py *)

Module App.

(** A session record: the dictionary stored in [sessions].  [role] is
    set by [join_session] only; [status] is one of ["pending"],
    ["ready"], ["transferring"], ["completed"], ["failed"]. *)
Record Session := {
  metadata : json;
  status : string;
  role : option string;
  progress : gmap pykey json
}.

Definition set_status (st : string) (s : Session) : Session :=
  {| metadata := metadata s; status := st; role := role s;
     progress := progress s |}.

Definition set_progress (k : pykey) (v : json) (s : Session) : Session :=
  {| metadata := metadata s; status := status s; role := role s;
     progress := <[k := v]> (progress s) |}.

(** [round((total / filesize) * 100, 2)]: a [float], or the exception
    that the division raises.  Floating point is a parameter. *)
Class Floats := {
  pyfloat : Type;
  percentage_of : Z → Z → outcome pyfloat
}.

(** Responses: the status code and the entries of the JSON body that
    are plain values. *)
Inductive response `{Floats} : Type :=
| Error (code : nat) (msg : string)
| Failure (e : exn)                        (* 500, from [except Exception] or unhandled *)
| Joined (session_id : string) (sender_ip ports filename filesize : json)
| Progress (session_id status : string) (progress : gmap pykey json)
    (total_transferred : Z) (filesize : json) (percentage : pyfloat)
    (num_parts : json)
| Updated
| Completed (status : string) (checksum_match expected_checksum : json).


Section app.
Context `{Hashlib, Floats}.

(** [{i: 0 for i in range(n)}] *)
Definition zero_progress (n : Z) : gmap pykey json :=
  list_to_map ((λ i, (KInt (Z.of_nat i), JInt 0)) <$> seq 0 (Z.to_nat n)).


(** [GET /progress/<session_id>] *)
Definition get_progress (session_id : string) (sessions : gmap string Session)
    : response :=
  match sessions !! session_id with
  | None => Error 404 "Session not found"
  | Some session =>
    let metadata := metadata session in
    match py_sum (progress session) with
    | Raised e => Failure e
    | Return total_transferred =>
      match py_getitem metadata "filesize" with
      | Raised e => Failure e
      | Return filesize =>
        match as_int filesize with
        | None => Failure TypeError
        | Some fsz =>
          match percentage_of total_transferred fsz with
          | Raised e => Failure e
          | Return percentage =>
            match py_getitem metadata "num_parts" with
            | Raised e => Failure e
            | Return num_parts =>
              Progress session_id (status session) (progress session)
                total_transferred filesize percentage num_parts
            end
          end
        end
      end
    end
  end.

(** [POST /update-progress/<session_id>].  The counter is written
    before the total is computed, so it stays written when what follows
    raises. *)
Definition update_progress (session_id : string) (data : json)
    (sessions : gmap string Session) : response * gmap string Session :=
  match sessions !! session_id with
  | None => (Error 404 "Session not found", sessions)
  | Some session =>
    match py_get data "chunk_id", py_get data "bytes_transferred" with
    | Raised e, _ | _, Raised e => (Failure e, sessions)
    | Return chunk_id, Return bytes_transferred =>
      if is_none chunk_id || is_none bytes_transferred
      then (Error 400 "chunk_id and bytes_transferred required", sessions)
      else
        match to_key chunk_id with
        | Raised e => (Failure e, sessions)
        | Return key =>
          let session := set_progress key bytes_transferred session in
          let sessions := <[session_id := session]> sessions in
          match py_sum (progress session) with
          | Raised e => (Failure e, sessions)
          | Return total_transferred =>
            match py_getitem (metadata session) "filesize" with
            | Raised e => (Failure e, sessions)
            | Return filesize =>
              match as_int filesize with
              | None => (Failure TypeError, sessions)
              | Some fsz =>
                let session :=
                  if (fsz <=? total_transferred)%Z
                  then set_status "completed" session
                  else set_status "transferring" session in
                (Updated, <[session_id := session]> sessions)
              end
            end
          end
        end
    end
  end.


End app.

(** *** Creating, listing, reading and deleting sessions *)

(** One entry of the list that [GET /sessions] returns. *)
Record SessionSummary := {
  sum_session_id : string;
  sum_filename : json;
  sum_filesize : json;
  sum_status : string;
  sum_num_parts : json
}.

(** The responses of these endpoints.  Of the body of [create_session]
    the entry ['filesize_human'], a rendering of the size, is left out. *)
Inductive reply : Type :=
| Refusal (code : nat) (msg : string)     (* [jsonify({'error': msg}), code] *)
| Crash (e : exn)                         (* 500 *)
| SessionCreated (session_id : string) (metadata : json) (qr_code_url : string)
| SessionList (sessions : list SessionSummary) (count : nat)
| SessionDeleted
| SessionInfo (session_id : string) (metadata : json) (status : string)
    (progress : gmap pykey json).

Definition reply_code (r : reply) : nat :=
  match r with
  | Refusal code _ => code
  | Crash _ => 500
  | SessionCreated _ _ _ => 201
  | SessionList _ _ | SessionDeleted | SessionInfo _ _ _ _ => 200
  end.

(** [data.get(key, default)] *)
Definition py_get_default (data : json) (key : string) (dflt : json)
    : outcome json :=
  match data with
  | JDict d => Return (default dflt (dict_get d key))
  | _ => Raised AttributeError
  end.

(** [range(n)] and [a + i] for JSON values [n] and [a] and an integer
    [i] *)
Definition py_range (n : json) : outcome (list Z) :=
  match as_int n with
  | Some z => Return (Z.of_nat <$> seq 0 (Z.to_nat z))
  | None => Raised TypeError
  end.

Definition py_add_int (a : json) (i : Z) : outcome json :=
  match as_int a with
  | Some z => Return (JInt (z + i))
  | None => Raised TypeError
  end.

Section sessions.
Context `{Hashlib, Utils.PurePath}.

(** [POST /create-session].  [ip] is what [get_local_ip] returns and
    [session_id] the fresh [uuid4]; [disk] is as for
    [Utils.create_metadata], so that a path exists exactly when it can be
    opened.  The entries ['created_at'] (always [None]) and ['filepath']
    of the stored session, which no endpoint reads, are not kept. *)
Definition create_session (disk : json → outcome (list byte))
    (ip session_id : string) (data : json) (sessions : gmap string Session)
    : reply * gmap string Session :=
  match py_in "filepath" data with
  | Raised e => (Crash e, sessions)
  | Return false => (Refusal 400 "filepath is required", sessions)
  | Return true =>
    match py_getitem data "filepath" with
    | Raised e => (Crash e, sessions)
    | Return (JStr s) =>
      let filepath := Utils.path_str s in
      match disk (JStr filepath) with
      | Raised _ => (Refusal 404 ("File not found: " +:+ filepath), sessions)
      | Return _ =>
        match py_get_default data "num_parts" (JInt 8),
              py_get_default data "base_port" (JInt 5001),
              py_get_default data "compression" (JBool false) with
        | Return num_parts, Return base_port, Return use_compression =>
          match py_range num_parts with
          | Raised e => (Crash e, sessions)
          | Return indices =>
            match Utils.traverse (py_add_int base_port) indices with
            | Raised e => (Crash e, sessions)
            | Return ports =>
              match Utils.create_metadata disk filepath ip (JList ports)
                      num_parts use_compression with
              | Raised e => (Crash e, sessions)
              | Return metadata =>
                let sessions :=
                  <[session_id :=
                      {| metadata := metadata; status := "pending";
                         role := None;
                         progress :=
                           zero_progress (default 0%Z (as_int num_parts)) |}]>
                    sessions in
                (SessionCreated session_id metadata ("/qr/" +:+ session_id),
                 sessions)
              end
            end
          end
        | Raised e, _, _ | _, Raised e, _ | _, _, Raised e =>
          (Crash e, sessions)
        end
      end
    | Return _ => (Crash TypeError, sessions)
    end
  end.

(** [GET /sessions].  The entries come in the order of the table, which
    is not modelled. *)
Definition session_summary (entry : string * Session) : outcome SessionSummary :=
  let '(sid, session) := entry in
  match py_getitem (metadata session) "filename" with
  | Raised e => Raised e
  | Return filename =>
    match py_getitem (metadata session) "filesize" with
    | Raised e => Raised e
    | Return filesize =>
      match py_getitem (metadata session) "num_parts" with
      | Raised e => Raised e
      | Return num_parts =>
        Return {| sum_session_id := sid; sum_filename := filename;
                  sum_filesize := filesize; sum_status := status session;
                  sum_num_parts := num_parts |}
      end
    end
  end.

Definition list_sessions (sessions : gmap string Session) : reply :=
  match Utils.traverse session_summary (map_to_list sessions) with
  | Raised e => Crash e
  | Return session_list => SessionList session_list (length session_list)
  end.

(** A session whose descriptor has the three entries that
    [list_sessions] reads. *)
Definition listable (session : Session) : Prop :=
  ∃ d, metadata session = JDict d ∧
       is_Some (dict_get d "filename") ∧ is_Some (dict_get d "filesize") ∧
       is_Some (dict_get d "num_parts").

(** [DELETE /session/<session_id>] *)
Definition delete_session (session_id : string)
    (sessions : gmap string Session) : reply * gmap string Session :=
  match sessions !! session_id with
  | None => (Refusal 404 "Session not found", sessions)
  | Some _ => (SessionDeleted, delete session_id sessions)
  end.

(** [GET /session/<session_id>] *)
Definition get_session (session_id : string)
    (sessions : gmap string Session) : reply :=
  match sessions !! session_id with
  | None => Refusal 404 "Session not found"
  | Some session =>
    SessionInfo session_id (metadata session) (status session)
      (progress session)
  end.

End sessions.
End App.

(** An instance of [App.Floats] that computes the percentage exactly, as
    a rational and without the rounding to two decimals, for running the
    model. *)
Definition exact_floats : App.Floats :=
  {| App.pyfloat := Q;
     App.percentage_of := λ total filesize,
       if (filesize =? 0)%Z then Raised ZeroDivisionError
       else Return (Qred (inject_Z (100 * total) / inject_Z filesize)) |}.

(** ** api/discovery.py

    Times are the seconds returned by [time.time()], taken as exact
    rationals.  A peer table is a dictionary keyed by the announced
    [ip]; the order of [dict.values()] is not modelled. *)

Module Discovery.

(** The threshold written as [30] in both [get_peers]. *)
Definition peer_timeout : Q := 30.

(** [a > b] and [a < b] on times *)
Definition Qgtb (a b : Q) : bool := negb (Qle_bool a b).
Definition Qltb (a b : Q) : bool := negb (Qle_bool b a).

(** A record of [PeerDiscovery.peers], as [_process_peer_info] stores it. *)
Record Peer := {
  device_name : json;
  ip : json;
  api_port : json;
  last_seen : Q
}.

(** [PeerDiscovery.get_peers], called at [current_time] *)
Definition get_peers (current_time : Q) (peers : gmap pykey Peer)
    : list Peer * gmap pykey Peer :=
  let stale_peers :=
    (filter (λ '(peer_id, peer),
               Is_true (Qgtb (current_time - last_seen peer) peer_timeout))
            (map_to_list peers)).*1 in
  let peers := foldr delete peers stale_peers in
  ((map_to_list peers).*2, peers).

(** A record of [MulticastDiscovery.peers]: the announcement as it was
    received, with ['last_seen'] added by the listener. *)
Record MulticastPeer := {
  peer_info : json;
  m_last_seen : Q
}.

(** [MulticastDiscovery.get_peers], called at [current_time] *)
Definition multicast_get_peers (current_time : Q)
    (peers : gmap pykey MulticastPeer)
    : list MulticastPeer * gmap pykey MulticastPeer :=
  let active_peers :=
    filter (λ peer, Is_true (Qltb (current_time - m_last_seen peer) peer_timeout))
           (map_to_list peers).*2 in
  (active_peers, peers).

(** *** The listeners

    [json] is a parameter: [loads] parses a text, and [dumps_info] is
    the text [json.dumps] gives for the dictionary that
    [_send_peer_response] and [_announce_presence] build from a device
    name, an address, a port and a timestamp.  The one fact used about
    [json.dumps] is that the text of a dictionary opens with a brace. *)
Class JsonText := {
  loads : string → outcome json;
  dumps_info : string → string → json → Q → string;
  dumps_info_object name ip port t :
    String.prefix "{" (dumps_info name ip port t) = true
}.

Import Stdlib.Strings.Ascii.

Definition DISCOVERY_MESSAGE : string := "AIRTRANS_DISCOVERY".
Definition RESPONSE_MESSAGE : string := "AIRTRANS_PEER".

(** [message[message.index('{'):]], or [None] where [index] raises *)
Fixpoint from_brace (message : string) : option string :=
  match message with
  | EmptyString => None
  | String c rest =>
    if Ascii.eqb c "{" then Some message else from_brace rest
  end.

(** [data.get(key, default)] on what [loads] returned *)
Definition get_or (data : json) (key : string) (dflt : json) : outcome json :=
  match data with
  | JDict d => Return (default dflt (dict_get d key))
  | _ => Raised AttributeError
  end.

Section listeners.
Context `{JsonText}.

(** [PeerDiscovery._process_peer_info] at time [now].  Every exception
    is caught by the method; what was stored before it stays stored.
    The second component is the record handed to [on_peer_found], when
    the method gets that far.  The log line for a new peer formats
    [peer_data['device_name']], which raises when the key is absent. *)
Definition _process_peer_info (now : Q) (message : string)
    (peers : gmap pykey Peer) : gmap pykey Peer * option Peer :=
  match from_brace message with
  | None => (peers, None)
  | Some text =>
    match loads text with
    | Raised _ => (peers, None)
    | Return peer_data =>
      match py_getitem peer_data "ip" with
      | Raised _ => (peers, None)
      | Return peer_ip =>
        match to_key peer_ip with
        | Raised _ => (peers, None)
        | Return peer_id =>
          let is_new := bool_decide (peers !! peer_id = None) in
          match get_or peer_data "device_name" (JStr "Unknown"),
                get_or peer_data "api_port" (JInt 8000) with
          | Return name, Return port =>
            let peer := {| device_name := name; ip := peer_ip;
                           api_port := port; last_seen := now |} in
            let peers := <[peer_id := peer]> peers in
            if is_new then
              match py_getitem peer_data "device_name" with
              | Raised _ => (peers, None)
              | Return _ => (peers, Some peer)
              end
            else (peers, None)
          | _, _ => (peers, None)
          end
        end
      end
    end
  end.

(** What one datagram makes the listener do besides updating the
    table. *)
Inductive reaction :=
| Ignored
| Responded (peer_ip : string) (response : string)
| Processed (found : option Peer).

(** The [PeerDiscovery] object as far as the listener uses it. *)
Record Node := {
  node_name : string;
  node_ip : string;        (* what [get_local_ip] returns *)
  node_api_port : json
}.

(** [_send_peer_response]: the datagram sent to [peer_ip]. *)
Definition _send_peer_response (self : Node) (now : Q) (peer_ip : string)
    : reaction :=
  Responded peer_ip
    (dumps_info (node_name self) (node_ip self) (node_api_port self) now).

(** The two datagrams of one round of [_announce_presence]. *)
Definition _announce_presence (self : Node) (now : Q) : list string :=
  [DISCOVERY_MESSAGE +:+ ":" +:+ node_name self;
   dumps_info (node_name self) (node_ip self) (node_api_port self) now].

(** One iteration of the loop of [_listen_for_peers]: the datagram
    [message] arrives from [addr] at time [now]. *)
Definition listen_step (self : Node) (now : Q) (message addr : string)
    (peers : gmap pykey Peer) : gmap pykey Peer * reaction :=
  if String.prefix DISCOVERY_MESSAGE message
  then (peers, _send_peer_response self now addr)
  else if String.prefix RESPONSE_MESSAGE message
  then let '(peers, found) := _process_peer_info now message peers in
       (peers, Processed found)
  else (peers, Ignored).

(** [_listen_for_peers] over the datagrams that arrive while it runs,
    each with its time of arrival and its sender. *)
Definition _listen_for_peers (self : Node)
    (arrivals : list (Q * string * string)) (peers : gmap pykey Peer)
    : gmap pykey Peer * list reaction :=
  foldl (λ '(peers, log) '(now, message, addr),
           let '(peers, r) := listen_step self now message addr peers in
           (peers, log ++ [r]))
        (peers, []) arrivals.

(** [PeerDiscovery.find_peer_by_name]; the order in which the records
    are tried is that of the table, which is not modelled. *)
Definition find_peer_by_name (name : string) (peers : gmap pykey Peer)
    : option Peer :=
  snd <$> list_find (λ peer, Is_true (py_eq (device_name peer) (JStr name)))
            (map_to_list peers).*2.

(** One iteration of the loop of [MulticastDiscovery._listen] for a
    datagram with text [data]; [own_name] is [self.device_name]. *)
Definition multicast_listen_step (own_name : string) (now : Q) (data : string)
    (peers : gmap pykey MulticastPeer) : gmap pykey MulticastPeer :=
  match loads data with
  | Raised _ => peers
  | Return info =>
    match py_getitem info "device_name" with
    | Raised _ => peers
    | Return name =>
      if py_eq name (JStr own_name) then peers else
      match py_getitem info "ip" with
      | Raised _ => peers
      | Return peer_ip =>
        match to_key peer_ip with
        | Raised _ => peers
        | Return peer_id =>
          <[peer_id := {| peer_info := info; m_last_seen := now |}]> peers
        end
      end
    end
  end.

End listeners.

End Discovery.

(** ** config/settings.py

    The class attributes that the methods read are the fields of a
    record; each is an integer taken from the environment. *)

Module Settings.

Record Config := {
  BASE_PORT : Z;
  MAX_PORTS : Z;
  DEFAULT_NUM_PARTS : Z;
  TARGET_CHUNK_SIZE : Z
}.

(** The values when the environment sets none. *)
Definition defaults : Config :=
  {| BASE_PORT := 5001; MAX_PORTS := 32; DEFAULT_NUM_PARTS := 8;
     TARGET_CHUNK_SIZE := 100 * 1024 * 1024 |}.

(** [Config.get_optimal_parts] *)
Definition get_optimal_parts (cls : Config) (filesize : Z) : outcome Z :=
  if (filesize <? TARGET_CHUNK_SIZE cls)%Z then Return 1%Z
  else if (TARGET_CHUNK_SIZE cls =? 0)%Z then Raised ZeroDivisionError
  else Return (Z.min (MAX_PORTS cls)
                 (Z.max 1 (filesize / TARGET_CHUNK_SIZE cls))).

(** [Config.validate] *)
Definition validate (cls : Config) : outcome bool :=
  let errors :=
    (if (BASE_PORT cls <? 1024)%Z || (65535 - MAX_PORTS cls <? BASE_PORT cls)%Z
     then ["Invalid BASE_PORT: " +:+ pretty (BASE_PORT cls)] else [])
    ++ (if (MAX_PORTS cls <? 1)%Z || (64 <? MAX_PORTS cls)%Z
        then ["Invalid MAX_PORTS: " +:+ pretty (MAX_PORTS cls)] else [])
    ++ (if (DEFAULT_NUM_PARTS cls <? 1)%Z
           || (MAX_PORTS cls <? DEFAULT_NUM_PARTS cls)%Z
        then ["Invalid DEFAULT_NUM_PARTS: " +:+ pretty (DEFAULT_NUM_PARTS cls)]
        else []) in
  match errors with
  | [] => Return true
  | _ :: _ =>
    Raised (ValueError ("Configuration errors: " +:+ String.concat ", " errors))
  end.

End Settings.

(** ** hashlib: SHA-256 (FIPS 180-4)

    An executable instance of [Hashlib], used to run the model on concrete
    files.  Words are numbers below [2^32]. *)

Module SHA256.
Open Scope N_scope.

Definition add32 (x y : N) : N := (x + y) mod 2 ^ 32.
Definition rotr (n x : N) : N :=
  N.lor (N.shiftr x n) (N.shiftl x (32 - n) mod 2 ^ 32).
Definition not32 (x : N) : N := N.lxor x 0xffffffff.

Definition Ch (x y z : N) : N := N.lxor (N.land x y) (N.land (not32 x) z).
Definition Maj (x y z : N) : N :=
  N.lxor (N.lxor (N.land x y) (N.land x z)) (N.land y z).
Definition Sigma0 (x : N) : N := N.lxor (N.lxor (rotr 2 x) (rotr 13 x)) (rotr 22 x).
Definition Sigma1 (x : N) : N := N.lxor (N.lxor (rotr 6 x) (rotr 11 x)) (rotr 25 x).
Definition sigma0 (x : N) : N := N.lxor (N.lxor (rotr 7 x) (rotr 18 x)) (N.shiftr x 3).
Definition sigma1 (x : N) : N := N.lxor (N.lxor (rotr 17 x) (rotr 19 x)) (N.shiftr x 10).

(** The round constants are the first 32 bits of the fractional parts of
    the cube roots of the first 64 primes, and the initial hash value
    those of the square roots of the first 8. *)
Definition primes : list N :=
  [ 2; 3; 5; 7; 11; 13; 17; 19; 23; 29; 31; 37; 41; 43; 47; 53;
    59; 61; 67; 71; 73; 79; 83; 89; 97; 101; 103; 107; 109; 113; 127; 131;
    137; 139; 149; 151; 157; 163; 167; 173; 179; 181; 191; 193; 197; 199;
    211; 223; 227; 229; 233; 239; 241; 251; 257; 263; 269; 271; 277; 281;
    283; 293; 307; 311 ].

(** The integer cube root of a number below [2^108], bit by bit. *)
Definition cube_root (n : N) : N :=
  foldl (λ r i, let r' := r + 2 ^ N.of_nat (35 - i) in
                if r' * r' * r' <=? n then r' else r)
        0 (seq 0 36).

Definition K : list N := (λ p, cube_root (p * 2 ^ 96) mod 2 ^ 32) <$> primes.

Definition H0 : list N := (λ p, N.sqrt (p * 2 ^ 64) mod 2 ^ 32) <$> take 8 primes.

Definition be_word (bs : list byte) : N :=
  foldl (λ acc b, acc * 256 + Byte.to_N b) 0 bs.

Definition be_bytes (width : nat) (x : N) : list byte :=
  (λ i, default x00 (Byte.of_N ((x / 256 ^ N.of_nat (width - 1 - i)) mod 256)))
    <$> seq 0 width.

(** Padding: a 1 bit, zeros, and the bit length on 64 bits. *)
Definition pad (msg : list byte) : list byte :=
  let l := length msg in
  msg ++ [x80] ++ replicate ((119 - l mod 64) mod 64)%nat x00
      ++ be_bytes 8 ((8 * N.of_nat l) mod 2 ^ 64).

(** The message schedule, most recent word first. *)
Fixpoint schedule (n : nat) (w : list N) : list N :=
  match n with
  | O => w
  | S n =>
    let x := add32 (add32 (sigma1 (w !!! 1%nat)) (w !!! 6%nat))
                   (add32 (sigma0 (w !!! 14%nat)) (w !!! 15%nat)) in
    schedule n (x :: w)
  end.

Definition round (st : list N) (kw : N * N) : list N :=
  match st with
  | [a; b; c; d; e; f; g; h] =>
    let t1 := add32 (add32 (add32 h (Sigma1 e)) (add32 (Ch e f g) kw.1)) kw.2 in
    let t2 := add32 (Sigma0 a) (Maj a b c) in
    [add32 t1 t2; a; b; c; add32 d t1; e; f; g]
  | _ => st
  end.

Definition compress (k h : list N) (block : list byte) : list N :=
  let w16 := (λ i, be_word (take 4 (drop (4 * i) block))) <$> seq 0 16 in
  let w := reverse (schedule 48 (reverse w16)) in
  zip_with add32 h (foldl round h (zip k w)).

Definition digest_words (msg : list byte) : list N :=
  let padded := pad msg in
  let k := K in
  foldl (λ h i, compress k h (take 64 (drop (64 * i) padded)))
        H0 (seq 0 (length padded / 64)).

Definition hex_digit (n : N) : Ascii.ascii :=
  Ascii.ascii_of_N (if n <? 10 then 48 + n else 87 + n).

Definition hex_word (x : N) : string :=
  foldr (λ i s, String (hex_digit ((x / 16 ^ N.of_nat (7 - i)) mod 16)) s)
        EmptyString (seq 0 8).

Definition hexdigest (msg : list byte) : string :=
  foldr (λ w s, hex_word w +:+ s) EmptyString (digest_words msg).

End SHA256.

Definition hashlib_sha256 : Hashlib := SHA256.hexdigest.

(** ** msgpack: the fragment of MessagePack that preambles use

    Integers in their shortest encoding, strings, and a fixmap with
    string keys.  An executable instance of [Apitran.Msgpack]; a preamble
    whose entries are not typed as the sender writes them is rejected. *)

Module MessagePack.
Import Apitran.

Inductive value :=
| VInt (z : Z)
| VStr (s : string).

Definition pack_int (z : Z) : outcome (list byte) :=
  let n := Z.to_N z in
  if (z <? -2 ^ 63)%Z then Raised OverflowError
  else if (z <? -2 ^ 31)%Z then Return (xd3 :: SHA256.be_bytes 8 (Z.to_N (z + 2 ^ 64)))
  else if (z <? -2 ^ 15)%Z then Return (xd2 :: SHA256.be_bytes 4 (Z.to_N (z + 2 ^ 32)))
  else if (z <? -2 ^ 7)%Z then Return (xd1 :: SHA256.be_bytes 2 (Z.to_N (z + 2 ^ 16)))
  else if (z <? -32)%Z then Return (xd0 :: SHA256.be_bytes 1 (Z.to_N (z + 2 ^ 8)))
  else if (z <? 0)%Z then Return (SHA256.be_bytes 1 (Z.to_N (z + 2 ^ 8)))
  else if (z <? 2 ^ 7)%Z then Return (SHA256.be_bytes 1 n)
  else if (z <? 2 ^ 8)%Z then Return (xcc :: SHA256.be_bytes 1 n)
  else if (z <? 2 ^ 16)%Z then Return (xcd :: SHA256.be_bytes 2 n)
  else if (z <? 2 ^ 32)%Z then Return (xce :: SHA256.be_bytes 4 n)
  else if (z <? 2 ^ 64)%Z then Return (xcf :: SHA256.be_bytes 8 n)
  else Raised OverflowError.

Definition pack_str (s : string) : outcome (list byte) :=
  let data := String.list_byte_of_string s in
  let n := N.of_nat (length data) in
  if (n <? 32)%N then Return (SHA256.be_bytes 1 (0xa0 + n) ++ data)
  else if (n <? 2 ^ 8)%N then Return (xd9 :: SHA256.be_bytes 1 n ++ data)
  else if (n <? 2 ^ 16)%N then Return (xda :: SHA256.be_bytes 2 n ++ data)
  else if (n <? 2 ^ 32)%N then Return (xdb :: SHA256.be_bytes 4 n ++ data)
  else Raised (ValueError "str is too large").

Definition pack_value (v : value) : outcome (list byte) :=
  match v with
  | VInt z => pack_int z
  | VStr s => pack_str s
  end.

(** [packb({'chunk_id': .., 'size': .., 'checksum': ..})] *)
Definition packb (m : ChunkMeta) : outcome (list byte) :=
  match pack_str "chunk_id", pack_int (meta_chunk_id m),
        pack_str "size", pack_int (meta_size m),
        pack_str "checksum", pack_str (meta_checksum m) with
  | Return k1, Return v1, Return k2, Return v2, Return k3, Return v3 =>
    Return (x83 :: k1 ++ v1 ++ k2 ++ v2 ++ k3 ++ v3)
  | Raised e, _, _, _, _, _ | _, Raised e, _, _, _, _
  | _, _, Raised e, _, _, _ | _, _, _, Raised e, _, _
  | _, _, _, _, Raised e, _ | _, _, _, _, _, Raised e => Raised e
  end.

Definition take_exactly (n : nat) (bs : list byte) : option (list byte * list byte) :=
  if length bs <? n then None else Some (take n bs, drop n bs).

Definition unpack_uint (width : nat) (bs : list byte) : option (value * list byte) :=
  '(w, rest) ← take_exactly width bs;
  Some (VInt (Z.of_N (SHA256.be_word w)), rest).

Definition unpack_sint (width : nat) (bs : list byte) : option (value * list byte) :=
  '(w, rest) ← take_exactly width bs;
  let n := Z.of_N (SHA256.be_word w) in
  let m := (2 ^ (8 * Z.of_nat width))%Z in
  Some (VInt (if (n <? m / 2)%Z then n else n - m)%Z, rest).

Definition unpack_str (len_width : nat) (bs : list byte) : option (value * list byte) :=
  '(w, rest) ← take_exactly len_width bs;
  '(data, rest) ← take_exactly (N.to_nat (SHA256.be_word w)) rest;
  Some (VStr (String.string_of_list_byte data), rest).

Definition unpack_value (bs : list byte) : option (value * list byte) :=
  match bs with
  | [] => None
  | b :: rest =>
    let t := Byte.to_N b in
    if (t <? 0x80)%N then Some (VInt (Z.of_N t), rest)
    else if (0xe0 <=? t)%N then Some (VInt (Z.of_N t - 256), rest)
    else if ((0xa0 <=? t) && (t <? 0xc0))%N then
      '(data, rest) ← take_exactly (N.to_nat (t - 0xa0)) rest;
      Some (VStr (String.string_of_list_byte data), rest)
    else if (t =? 0xcc)%N then unpack_uint 1 rest
    else if (t =? 0xcd)%N then unpack_uint 2 rest
    else if (t =? 0xce)%N then unpack_uint 4 rest
    else if (t =? 0xcf)%N then unpack_uint 8 rest
    else if (t =? 0xd0)%N then unpack_sint 1 rest
    else if (t =? 0xd1)%N then unpack_sint 2 rest
    else if (t =? 0xd2)%N then unpack_sint 4 rest
    else if (t =? 0xd3)%N then unpack_sint 8 rest
    else if (t =? 0xd9)%N then unpack_str 1 rest
    else if (t =? 0xda)%N then unpack_str 2 rest
    else if (t =? 0xdb)%N then unpack_str 4 rest
    else None
  end.

(** [n] key/value pairs; a later entry for a key replaces an earlier one. *)
Fixpoint unpack_entries (n : nat) (bs : list byte) (d : gmap string value)
    : option (gmap string value * list byte) :=
  match n with
  | O => Some (d, bs)
  | S n =>
    '(k, rest) ← unpack_value bs;
    '(v, rest) ← unpack_value rest;
    match k with
    | VStr key => unpack_entries n rest (<[key := v]> d)
    | VInt _ => None
    end
  end.

Definition unpackb (bs : list byte) : outcome ChunkMeta :=
  match bs with
  | b :: rest =>
    let t := Byte.to_N b in
    if ((0x80 <=? t) && (t <? 0x90))%N then
      match unpack_entries (N.to_nat (t - 0x80)) rest ∅ with
      | Some (d, []) =>
        match d !! "chunk_id", d !! "size", d !! "checksum" with
        | Some (VInt i), Some (VInt n), Some (VStr c) =>
          Return {| meta_chunk_id := i; meta_size := n; meta_checksum := c |}
        | _, None, _ | _, _, None => Raised KeyError
        | _, _, _ => Raised TypeError
        end
      | _ => Raised UnpackException
      end
    else Raised UnpackException
  | [] => Raised UnpackException
  end.

End MessagePack.

Definition msgpack_impl : Apitran.Msgpack :=
  {| Apitran.packb := MessagePack.packb; Apitran.unpackb := MessagePack.unpackb |}.

(** Joining with a slash, which is what [pathlib] does for a relative
    [filename]. *)
Definition posix_join : Apitran.Pathlib := λ dir name, dir +:+ "/" +:+ name.

(** ** Sample data for the concrete runs *)

Module Sample.
Import Apitran.
#[local] Existing Instance hashlib_sha256.
#[local] Existing Instance msgpack_impl.
#[local] Existing Instance posix_join.

(** Ten bytes [0..9], to be sent in three parts. *)
Definition ten_bytes : list byte :=
  [x00; x01; x02; x03; x04; x05; x06; x07; x08; x09].

(** What a peer writes on a stream when its preamble announces
    [claimed] as chunk [chunk_id] and the payload it sends is [sent]. *)
Definition frame (chunk_id : nat) (claimed sent : list byte) : list byte :=
  match packb (chunk_metadata claimed chunk_id) with
  | Return packed =>
    match to_bytes4 (length packed) with
    | Return len4 => len4 ++ packed ++ sent
    | Raised _ => []
    end
  | Raised _ => []
  end.

(** A two-part descriptor for the file [AB]. *)
Definition descriptor (checksum : string) : Descriptor :=
  {| filename := "f.bin"; filesize := 2; ports := [5001; 5002]%Z;
     num_parts := 2; checksum := checksum |}.

Definition receiver (checksum : string) : AirTransReceiver * filesystem :=
  (AirTransReceiver_init (descriptor checksum) "/tmp/airtrans", ∅).

(** A peer that serves [A] on the first port and [B] on the second,
    each announced as chunk [id0], [id1]. *)
Definition peer (id0 id1 : nat) (i : nat) : connection :=
  if i =? 0 then Connected (frame id0 [x41] [x41]) []
  else Connected (frame id1 [x42] [x42]) [2; 1].

(** A stream whose preamble describes [A] and whose payload is [B]. *)
Definition tampered : list byte := frame 0 [x41] [x42].

(** Session-service data. *)
Definition descriptor_json (filesize : Z) (checksum : string) : list (string * json) :=
  [("filename", JStr "f.bin"); ("filesize", JInt filesize);
   ("ip", JStr "10.0.0.1"); ("ports", JList [JInt 5001]);
   ("num_parts", JInt 1); ("checksum", JStr checksum)].

Definition session (checksum : string) (status : string) : App.Session :=
  {| App.metadata := JDict (descriptor_json 10 checksum);
     App.status := status; App.role := Some "receiver";
     App.progress := {[ KInt 0 := JInt 0 ]} |}.

(** A server disk holding one file. *)
Definition disk (path : string) (contents : list byte) (p : json)
    : outcome (list byte) :=
  match p with
  | JStr q => if String.eqb q path then Return contents
              else Raised FileNotFoundError
  | _ => Raised TypeError
  end.

(** A multicast peer table with one record, last seen at time [0]. *)
Definition multicast_table : gmap pykey Discovery.MulticastPeer :=
  {[ KStr "10.0.0.2" :=
       {| Discovery.peer_info := JDict [("device_name", JStr "laptop");
                                        ("ip", JStr "10.0.0.2")];
          Discovery.m_last_seen := 0 |} ]}.

Definition broadcast_table : gmap pykey Discovery.Peer :=
  {[ KStr "10.0.0.2" :=
       {| Discovery.device_name := JStr "laptop"; Discovery.ip := JStr "10.0.0.2";
          Discovery.api_port := JInt 8000; Discovery.last_seen := 0 |} ]}.

End Sample.

(** * Properties *)

(** ** Partitioning *)

Section partitioning.
Context `{Hashlib}.
Implicit Types (F : list byte) (N i : nat).

Lemma interior_bound F N i :
  i < N - 1 → i * (length F / N) + length F / N ≤ length F.
Proof.
  intros Hi.
  assert (N * (length F / N) ≤ length F) by (apply Nat.Div0.mul_div_le).
  nia.
Qed.

Lemma last_bound F N :
  1 ≤ N → (N - 1) * (length F / N) ≤ length F.
Proof.
  intros HN.
  assert (N * (length F / N) ≤ length F) by (apply Nat.Div0.mul_div_le).
  nia.
Qed.

Lemma split_chunks_lookup F N i :
  i < N →
  Apitran.split_chunks F (length F) N !! i =
    Some (if decide (i < N - 1)
          then take (length F / N) (drop (i * (length F / N)) F)
          else drop ((N - 1) * (length F / N)) F).
Proof.
  intros Hi. unfold Apitran.split_chunks.
  rewrite list_lookup_fmap, lookup_seq_lt by done. simpl.
  unfold py_slice. case_decide as Hlt.
  - apply Nat.ltb_lt in Hlt as ->. by rewrite Nat.add_sub'.
  - assert (i = N - 1) as -> by lia.
    rewrite Nat.ltb_irrefl, take_ge; [done|]. rewrite length_drop. lia.
Qed.

Lemma split_chunks_snoc F N :
  1 ≤ N →
  Apitran.split_chunks F (length F) N =
    ((λ i, take (length F / N) (drop (i * (length F / N)) F)) <$> seq 0 (N - 1))
    ++ [drop ((N - 1) * (length F / N)) F].
Proof.
  intros HN. apply list_eq. intros i.
  destruct (decide (i < N)) as [Hi|Hi].
  - rewrite split_chunks_lookup by done. case_decide.
    + rewrite lookup_app_l by (rewrite length_fmap, length_seq; lia).
      by rewrite list_lookup_fmap, lookup_seq_lt.
    + rewrite lookup_app_r by (rewrite length_fmap, length_seq; lia).
      rewrite length_fmap, length_seq. by replace (i - (N - 1)) with 0 by lia.
  - rewrite !lookup_ge_None_2; [done| |].
    + rewrite length_app, length_fmap, length_seq. simpl. lia.
    + unfold Apitran.split_chunks. rewrite length_fmap, length_seq. lia.
Qed.

Lemma concat_interior F (c k : nat) :
  concat ((λ i, take c (drop (i * c) F)) <$> seq 0 k) = take (k * c) F.
Proof.
  induction k as [|k IH]; [done|].
  rewrite seq_S, fmap_app, concat_app, IH. simpl.
  rewrite app_nil_r, take_take_drop. f_equal. lia.
Qed.

Lemma split_chunks_concat F N :
  1 ≤ N → concat (Apitran.split_chunks F (length F) N) = F.
Proof.
  intros HN. rewrite split_chunks_snoc, concat_app, concat_interior by done.
  simpl. by rewrite app_nil_r, take_drop.
Qed.

(** The read loops of [utils.py], after [k] interior iterations. *)
Lemma checksum_loop F N k :
  k ≤ N - 1 →
  foldl (Utils.chunk_checksums_body (length F) (length F / N) N)
        (F, []) (seq 0 k)
  = (drop (k * (length F / N)) F,
     sha256 <$> ((λ i, take (length F / N) (drop (i * (length F / N)) F))
                 <$> seq 0 k)).
Proof.
  induction k as [|k IH]; intros Hk; [done|].
  rewrite seq_S, foldl_snoc, IH by lia.
  unfold Utils.chunk_checksums_body, Utils.current_chunk_size. simpl.
  assert ((k =? N - 1) = false) as -> by (apply Nat.eqb_neq; lia).
  rewrite drop_drop, !fmap_app. simpl. do 2 f_equal. lia.
Qed.

Lemma split_loop (chunk_path : nat → string) F N k (fs : filesystem) :
  k ≤ N - 1 →
  foldl (Utils.split_file_body chunk_path (length F) (length F / N) N)
        (F, fs, []) (seq 0 k)
  = (drop (k * (length F / N)) F,
     foldl (λ fs '(p, d), <[p := d]> fs) fs
       (zip (chunk_path <$> seq 0 k)
            ((λ i, take (length F / N) (drop (i * (length F / N)) F))
             <$> seq 0 k)),
     chunk_path <$> seq 0 k).
Proof.
  induction k as [|k IH]; intros Hk; [done|].
  rewrite seq_S, foldl_snoc, IH by lia.
  unfold Utils.split_file_body, Utils.current_chunk_size. simpl.
  assert ((k =? N - 1) = false) as -> by (apply Nat.eqb_neq; lia).
  rewrite drop_drop, !fmap_app. simpl.
  rewrite zip_with_app by (by rewrite !length_fmap).
  rewrite foldl_app. simpl.
  by rewrite (Nat.add_comm (length F / N)).
Qed.

Lemma last_chunk_read F N :
  1 ≤ N →
  file_read (drop ((N - 1) * (length F / N)) F)
    (Utils.current_chunk_size (length F) (length F / N) N (N - 1))
  = (drop ((N - 1) * (length F / N)) F, []).
Proof.
  intros HN. unfold file_read, Utils.current_chunk_size.
  rewrite Nat.eqb_refl. generalize (length F / N). intros c. f_equal.
  - apply take_ge. rewrite length_drop. lia.
  - apply drop_ge. rewrite length_drop. lia.
Qed.

Lemma calculate_chunk_checksums_spec F N :
  1 ≤ N →
  Utils.calculate_chunk_checksums F N =
    Return (sha256 <$> Apitran.split_chunks F (length F) N).
Proof.
  intros HN. rewrite split_chunks_snoc by done.
  unfold Utils.calculate_chunk_checksums. cbv zeta.
  assert ((N =? 0) = false) as -> by (apply Nat.eqb_neq; lia).
  replace (seq 0 N) with (seq 0 (N - 1) ++ [N - 1])
    by (change (N - 1) with (0 + (N - 1)) at 2;
        rewrite <- seq_S; f_equal; lia).
  rewrite foldl_snoc, checksum_loop by lia.
  unfold Utils.chunk_checksums_body at 1.
  rewrite last_chunk_read by done. by rewrite fmap_app.
Qed.

Lemma split_file_spec (chunk_path : nat → string) F N (fs : filesystem) :
  1 ≤ N →
  Utils.split_file chunk_path F N fs =
    (Return (chunk_path <$> seq 0 N),
     foldl (λ fs '(p, d), <[p := d]> fs) fs
       (zip (chunk_path <$> seq 0 N) (Apitran.split_chunks F (length F) N))).
Proof.
  intros HN. rewrite split_chunks_snoc by done.
  unfold Utils.split_file. cbv zeta.
  assert ((N =? 0) = false) as -> by (apply Nat.eqb_neq; lia).
  replace (seq 0 N) with (seq 0 (N - 1) ++ [N - 1])
    by (change (N - 1) with (0 + (N - 1)) at 2;
        rewrite <- seq_S; f_equal; lia).
  rewrite foldl_snoc, split_loop by lia.
  unfold Utils.split_file_body at 1.
  rewrite last_chunk_read by done.
  rewrite fmap_app, zip_with_app by (by rewrite !length_fmap).
  by rewrite foldl_app.
Qed.

(** C2 (deterministic partitioning).  For every byte sequence [F] and
    every [N ≥ 1], the chunk list that [send_file] builds has [N] parts;
    part [i < N-1] is the slice [F[i*(|F|//N) : (i+1)*(|F|//N)]], of
    length [|F|//N]; part [N-1] is the rest, of length
    [|F| - (N-1)*(|F|//N)]; the parts concatenated in order give [F];
    [FileChunker.split_file] writes exactly these parts, in order, to the
    chunk paths, and [ChecksumManager.calculate_chunk_checksums] returns
    their digests. *)
Theorem deterministic_partitioning (chunk_path : nat → string)
    (fs : filesystem) F N :
  1 ≤ N →
  let c := length F / N in
  let parts := Apitran.split_chunks F (length F) N in
  length parts = N ∧
  (∀ i, i < N - 1 →
     parts !! i = Some (py_slice F (i * c) ((i + 1) * c)) ∧
     length (py_slice F (i * c) ((i + 1) * c)) = c) ∧
  parts !! (N - 1) = Some (drop ((N - 1) * c) F) ∧
  length (drop ((N - 1) * c) F) = length F - (N - 1) * c ∧
  concat parts = F ∧
  Utils.split_file chunk_path F N fs =
    (Return (chunk_path <$> seq 0 N),
     foldl (λ fs '(p, d), <[p := d]> fs) fs
       (zip (chunk_path <$> seq 0 N) parts)) ∧
  Utils.calculate_chunk_checksums F N = Return (sha256 <$> parts).
Proof.
  intros HN c parts. repeat split.
  - unfold parts, Apitran.split_chunks. by rewrite length_fmap, length_seq.
  - unfold parts. rewrite split_chunks_lookup, decide_True by lia.
    unfold py_slice. do 2 f_equal. fold c. lia.
  - unfold py_slice. rewrite length_take, length_drop.
    pose proof (interior_bound F N i) as Hb. fold c in Hb. lia.
  - unfold parts. by rewrite split_chunks_lookup, decide_False by lia.
  - by rewrite length_drop.
  - by apply split_chunks_concat.
  - by apply split_file_spec.
  - by apply calculate_chunk_checksums_spec.
Qed.

End partitioning.

(** ** Framing *)

Section framing.
Import Apitran.

Lemma to_N_byte_of_N (n : N) : Byte.to_N (byte_of_N n) = (n mod 256)%N.
Proof.
  unfold byte_of_N. destruct (Byte.of_N (n mod 256)) as [b|] eqn:Hb; simpl.
  - by apply Byte.to_of_N.
  - apply Byte.of_N_None_iff in Hb.
    pose proof (N.mod_upper_bound n 256). lia.
Qed.

Lemma from_bytes_to_bytes4 (n : nat) (b : list byte) :
  to_bytes4 n = Return b → from_bytes b = n ∧ length b = 4.
Proof.
  unfold to_bytes4. destruct (N.ltb_spec (N.of_nat n) (2 ^ 32)) as [Hn|]; [|done].
  intros [= <-]. split; [|done].
  unfold from_bytes. simpl. rewrite !to_N_byte_of_N.
  apply Nat2N.inj. rewrite N2Nat.id.
  generalize dependent (N.of_nat n). intros m Hm.
  change (2 ^ 32)%N with (256 * 256 * 256 * 256)%N in Hm.
  change (2 ^ 24)%N with (256 * 256 * 256)%N.
  change (2 ^ 16)%N with (256 * 256)%N. change (2 ^ 8)%N with 256%N.
  rewrite <- !N.Div0.div_div.
  pose proof (N.div_mod' m 256) as H0.
  pose proof (N.div_mod' (m / 256) 256) as H1.
  pose proof (N.div_mod' (m / 256 / 256) 256) as H2.
  assert (m / 256 / 256 / 256 < 256)%N as H3
    by (rewrite !N.Div0.div_div; by apply N.Div0.div_lt_upper_bound).
  rewrite (N.mod_small _ _ H3).
  generalize dependent (m mod 256)%N. intros r0 ?.
  generalize dependent (m / 256 mod 256)%N. intros r1 ?.
  generalize dependent (m / 256 / 256 mod 256)%N. intros r2 ?.
  generalize dependent (m / 256 / 256 / 256)%N. intros q3 ??.
  generalize dependent (m / 256 / 256)%N. intros q2 ??.
  generalize dependent (m / 256)%N. intros q1 ??.
  lia.
Qed.

Lemma block_size_pos : 0 < block_size.
Proof. unfold block_size. lia. Qed.

#[local] Opaque block_size.

Lemma range_step_covers (stop step : nat) :
  0 < step → stop ≤ (stop + step - 1) / step * step.
Proof.
  intros Hstep.
  pose proof (Nat.mul_succ_div_gt (stop + step - 1) step) as Hgt.
  generalize dependent ((stop + step - 1) / step). intros q Hq. nia.
Qed.

Section engine.
Context `{Hashlib, Msgpack, Pathlib}.

Lemma write_blocks_offsets (chunk_data : list byte) (chunk_id : nat)
    (offs : list nat) (writer : list byte) (s : TransferSession) :
  ∃ s',
    for_each offs (write_block chunk_data chunk_id) (writer, s)
    = (Return tt,
       (writer ++ concat ((λ i, py_slice chunk_data i (i + block_size)) <$> offs),
        s')).
Proof.
  revert writer s. induction offs as [|i offs IH]; intros writer s; simpl.
  - exists s. unfold ret. by rewrite app_nil_r.
  - unfold bind, write_block at 1, modify.
    edestruct IH as [s' ->]. exists s'. by rewrite <- app_assoc.
Qed.

Lemma write_blocks_spec chunk_data chunk_id writer s :
  ∃ s', write_blocks chunk_data chunk_id (writer, s)
        = (Return tt, (writer ++ chunk_data, s')).
Proof.
  unfold write_blocks, range_step.
  destruct (write_blocks_offsets chunk_data chunk_id
              ((λ k, k * block_size) <$>
               seq 0 ((length chunk_data + block_size - 1) / block_size))
              writer s) as [s' ->].
  exists s'. do 3 f_equal.
  rewrite <- list_fmap_compose.
  rewrite (list_fmap_ext _
             (λ i, take block_size (drop (i * block_size) chunk_data)))
    by (intros; simpl; unfold py_slice; by rewrite Nat.add_sub').
  rewrite concat_interior. apply take_ge, range_step_covers, block_size_pos.
Qed.

Lemma handle_client_sent chunk_data chunk_id s packed :
  packb (chunk_metadata chunk_data chunk_id) = Return packed →
  (N.of_nat (length packed) < 2 ^ 32)%N →
  ∃ len4 s',
    to_bytes4 (length packed) = Return len4 ∧
    _handle_client chunk_data chunk_id s
    = (Sent (len4 ++ packed ++ chunk_data), s').
Proof.
  intros Hpack Hlen. unfold _handle_client. rewrite Hpack.
  unfold to_bytes4. apply N.ltb_lt in Hlen. rewrite Hlen.
  destruct (write_blocks_spec chunk_data chunk_id
              ([byte_of_N (N.of_nat (length packed) / 2 ^ 24);
                byte_of_N (N.of_nat (length packed) / 2 ^ 16);
                byte_of_N (N.of_nat (length packed) / 2 ^ 8);
                byte_of_N (N.of_nat (length packed))] ++ packed) s)
    as [s' ->].
  eexists _, s'. split; [done|]. by rewrite <- app_assoc.
Qed.

(** *** The receiving loop *)

Lemma read_spec (n : nat) (r : Reader) :
  0 < n →
  ∃ k, 1 ≤ k ≤ n ∧
    read n r = (take k (buffer r),
                {| buffer := drop k (buffer r); avail := tail (avail r) |}).
Proof.
  intros Hn. unfold read. destruct (avail r) as [|a av].
  - exists n. split; [lia|done].
  - exists (Nat.min n (Nat.max 1 a)). split; [lia|done].
Qed.

Lemma read_chunk_S fuel size cid r acc recvd rv :
  read_chunk (S fuel) size cid r acc recvd rv =
    if (Z.of_nat recvd <? size)%Z then
      match (read block_size r).1 with
      | [] => (acc, rv)
      | _ :: _ =>
        read_chunk fuel size cid (read block_size r).2
          (acc ++ (read block_size r).1)
          (recvd + length (read block_size r).1)
          (with_session
             (note_block cid (recvd + length (read block_size r).1)
                (length (read block_size r).1)) rv)
      end
    else (acc, rv).
Proof. simpl. by destruct (read block_size r). Qed.

Lemma read_chunk_frame fuel size cid r acc recvd rv out rv' :
  read_chunk fuel size cid r acc recvd rv = (out, rv') →
  metadata rv' = metadata rv ∧ output_dir rv' = output_dir rv ∧
  chunks rv' = chunks rv.
Proof.
  revert r acc recvd rv.
  induction fuel as [|fuel IH]; intros r acc recvd rv.
  { by intros [= _ <-]. }
  rewrite read_chunk_S.
  destruct (Z.of_nat recvd <? size)%Z; [|by intros [= _ <-]].
  destruct (read block_size r).1; [by intros [= _ <-]|].
  intros Hrec. by apply IH in Hrec.
Qed.

(** More fuel than bytes in the buffer changes nothing: the loop has
    ended by itself. *)
Lemma read_chunk_fuel fuel fuel' size cid r acc recvd rv :
  length (buffer r) < fuel → length (buffer r) < fuel' →
  read_chunk fuel size cid r acc recvd rv
  = read_chunk fuel' size cid r acc recvd rv.
Proof.
  revert fuel' r acc recvd rv.
  induction fuel as [|fuel IH]; intros fuel' r acc recvd rv Hf Hf'; [lia|].
  destruct fuel' as [|fuel']; [lia|]. rewrite !read_chunk_S.
  destruct (Z.of_nat recvd <? size)%Z; [|done].
  destruct (read_spec block_size r block_size_pos) as (k & Hk & ->).
  cbn [fst snd].
  destruct (take k (buffer r)) as [|b block] eqn:Hblock; [done|].
  assert (length (buffer r)
          = length (b :: block) + length (drop k (buffer r))) as Hlen
    by (by rewrite <- Hblock, <- length_app, take_drop).
  simpl in Hlen. apply IH; simpl; lia.
Qed.

(** When the stream holds exactly the announced number of bytes the loop
    returns them all, whatever the arrival schedule. *)
Lemma read_chunk_exact fuel size cid r acc recvd rv :
  length (buffer r) < fuel →
  Z.of_nat (recvd + length (buffer r)) = size →
  (read_chunk fuel size cid r acc recvd rv).1 = acc ++ buffer r.
Proof.
  revert r acc recvd rv.
  induction fuel as [|fuel IH]; intros r acc recvd rv Hf Hsize; [lia|].
  rewrite read_chunk_S.
  destruct (Z.ltb_spec (Z.of_nat recvd) size) as [Hlt|Hge].
  - destruct (read_spec block_size r block_size_pos) as (k & Hk & ->).
    cbn [fst snd].
    destruct (take k (buffer r)) as [|b block] eqn:Hblock.
    + destruct (buffer r) as [|b buf] eqn:Hbuf; [simpl in *; lia|].
      destruct k; [lia|done].
    + assert (length (buffer r)
              = length (b :: block) + length (drop k (buffer r))) as Hlen
        by (by rewrite <- Hblock, <- length_app, take_drop).
      rewrite IH; cbn [buffer].
      * by rewrite <- app_assoc, <- Hblock, take_drop.
      * simpl in Hlen. lia.
      * lia.
  - assert (length (buffer r) = 0) as Hnil by lia.
    apply nil_length_inv in Hnil as ->. by rewrite app_nil_r.
Qed.

Lemma read_chunk_data_indep fuel size cid cid' r acc recvd rv rv0 :
  (read_chunk fuel size cid r acc recvd rv).1
  = (read_chunk fuel size cid' r acc recvd rv0).1.
Proof.
  revert r acc recvd rv rv0.
  induction fuel as [|fuel IH]; intros r acc recvd rv rv0; [done|].
  rewrite !read_chunk_S. destruct (Z.of_nat recvd <? size)%Z; [|done].
  destruct (read block_size r).1; [done|]. apply IH.
Qed.

(** *** [receive_chunk] *)

Lemma receive_chunk_frame conn i rv o rv' :
  receive_chunk conn i rv = (o, rv') →
  metadata rv' = metadata rv ∧ output_dir rv' = output_dir rv ∧
  match o with
  | Raised _ => chunks rv' = chunks rv
  | Return _ => ∃ chunk_data, chunks rv' = <[i := chunk_data]> (chunks rv)
  end.
Proof.
  unfold receive_chunk. destruct conn as [|stream av]; [by intros [= <- <-]|].
  destruct (read_preamble _) as [[meta|e] r]; [|by intros [= <- <-]].
  destruct (read_chunk _ _ _ _ _ _ _) as [chunk_data rv1] eqn:Hloop.
  apply read_chunk_frame in Hloop as (Hm & Hd & Hc).
  case_bool_decide; intros [= <- <-]; simpl; [done|].
  repeat split; [done..|]. exists chunk_data. by rewrite Hc.
Qed.

(** Whether a part is accepted depends on the stream alone. *)
Lemma receive_chunk_verdict conn i rv rv0 :
  (receive_chunk conn i rv).1 = (receive_chunk conn i rv0).1.
Proof.
  unfold receive_chunk. destruct conn as [|stream av]; [done|].
  destruct (read_preamble _) as [[meta|e] r]; [|done].
  pose proof (read_chunk_data_indep (S (length (buffer r))) (meta_size meta)
                i i r [] 0 rv rv0) as Hdata.
  destruct (read_chunk _ _ _ _ _ _ rv) as [d1 rv1].
  destruct (read_chunk _ _ _ _ _ _ rv0) as [d2 rv2].
  simpl in Hdata. subst d2. by case_bool_decide.
Qed.

Lemma readexactly_app (l rest : list byte) av n :
  n = length l →
  readexactly n {| buffer := l ++ rest; avail := av |}
  = (Return l, {| buffer := rest; avail := av |}).
Proof.
  intros ->. unfold readexactly. simpl.
  rewrite length_app.
  assert ((length l + length rest <? length l) = false) as ->
    by (apply Nat.ltb_ge; lia).
  by rewrite take_app_length, drop_app_length.
Qed.

Lemma read_preamble_framed len4 packed rest av :
  to_bytes4 (length packed) = Return len4 →
  read_preamble {| buffer := len4 ++ packed ++ rest; avail := av |}
  = (unpackb packed, {| buffer := rest; avail := av |}).
Proof.
  intros [Hfrom Hlen]%from_bytes_to_bytes4. unfold read_preamble.
  rewrite readexactly_app by done. rewrite Hfrom.
  by rewrite readexactly_app.
Qed.

(** A stream framed by an honest handler is accepted and stored under
    the index of the task that read it. *)
Lemma receive_chunk_framed len4 packed chunk meta av i rv :
  to_bytes4 (length packed) = Return len4 →
  unpackb packed = Return meta →
  meta_size meta = Z.of_nat (length chunk) →
  meta_checksum meta = sha256 chunk →
  ∃ rv', receive_chunk (Connected (len4 ++ packed ++ chunk) av) i rv
         = (Return tt, rv') ∧
         metadata rv' = metadata rv ∧ output_dir rv' = output_dir rv ∧
         chunks rv' = <[i := chunk]> (chunks rv).
Proof.
  intros Hlen Hunpack Hsize Hsum. unfold receive_chunk.
  rewrite read_preamble_framed, Hunpack by done. cbn [buffer].
  pose proof (read_chunk_exact (S (length chunk)) (meta_size meta) i
                {| buffer := chunk; avail := av |} [] 0 rv) as Hdata.
  destruct (read_chunk _ _ _ _ _ _ _) as [chunk_data rv1] eqn:Hloop.
  simpl in Hdata. rewrite Hdata by (simpl; lia). clear Hdata.
  apply read_chunk_frame in Hloop as (Hm & Hd & Hc).
  rewrite Hsum, bool_decide_false by naive_solver.
  eexists. split; [done|]. simpl. by rewrite Hc.
Qed.

(** *** [gather] over the receive tasks *)

Lemma receive_task_run net (ports : list Z) i rv (fs : filesystem) :
  default (ret tt) (receive_tasks net ports !! i) (rv, fs)
  = if decide (i < length ports)
    then ((receive_chunk (net i) i rv).1, ((receive_chunk (net i) i rv).2, fs))
    else (Return tt, (rv, fs)).
Proof.
  unfold receive_tasks. rewrite list_lookup_imap. case_decide as Hi.
  - apply lookup_lt_is_Some in Hi as [port ->]. simpl.
    by destruct (receive_chunk (net i) i rv).
  - by rewrite lookup_ge_None_2 by lia.
Qed.

Lemma gather_frame net (ports : list Z) order rv (fs : filesystem) o rv' fs' :
  gather (receive_tasks net ports) order (rv, fs) = (o, (rv', fs')) →
  fs' = fs ∧ metadata rv' = metadata rv ∧ output_dir rv' = output_dir rv.
Proof.
  unfold gather. revert rv.
  induction order as [|i order IH]; intros rv; simpl.
  { by intros [= _ <- <-]. }
  unfold bind at 1. rewrite receive_task_run. case_decide.
  - destruct (receive_chunk (net i) i rv) as [[[]|e] rv1] eqn:Hrun;
      apply receive_chunk_frame in Hrun as (Hm & Hd & _); simpl.
    + intros (-> & Hm' & Hd')%IH. split; [done|]. split; congruence.
    + by intros [= _ <- <-].
  - apply IH.
Qed.

(** If every scheduled task accepts its stream, [gather] returns and
    every part is stored under its task index. *)
Lemma gather_accepts net (ports : list Z) (part : nat → list byte) order rv
    (fs : filesystem) :
  (∀ i, i ∈ order → i < length ports ∧
     ∀ rv, ∃ rv', receive_chunk (net i) i rv = (Return tt, rv') ∧
                  chunks rv' = <[i := part i]> (chunks rv)) →
  ∃ rv', gather (receive_tasks net ports) order (rv, fs) = (Return tt, (rv', fs)) ∧
         ∀ j, chunks rv' !! j
              = if decide (j ∈ order) then Some (part j) else chunks rv !! j.
Proof.
  unfold gather. revert rv.
  induction order as [|i order IH]; intros rv Hacc; simpl.
  { exists rv. split; [done|]. intros j.
    by destruct (decide (j ∈ [])) as [?%elem_of_nil|]. }
  destruct (Hacc i) as (? & Hrun); [left|].
  destruct (Hrun rv) as (rv1 & Hrv1 & Hchunks).
  unfold bind at 1. rewrite receive_task_run, decide_True, Hrv1 by done. simpl.
  destruct (IH rv1) as (rv' & -> & Hall).
  { intros j Hj. apply Hacc. by right. }
  exists rv'. split; [done|]. intros j. rewrite Hall, Hchunks.
  destruct (decide (j ∈ order)) as [Hin|Hnot].
  - by rewrite decide_True by (by right).
  - destruct (decide (i = j)) as [->|Hne].
    + by rewrite lookup_insert_eq, decide_True by left.
    + rewrite lookup_insert_ne by done.
      rewrite decide_False; [done|]. by intros [->|]%elem_of_cons.
Qed.

(** If some scheduled task rejects its stream, [gather] raises and the
    file system has not been touched. *)
Lemma gather_rejects net (ports : list Z) order i e rv0 rv (fs : filesystem) :
  i ∈ order → i < length ports →
  (receive_chunk (net i) i rv0).1 = Raised e →
  ∃ e' rv', gather (receive_tasks net ports) order (rv, fs)
            = (Raised e', (rv', fs)).
Proof.
  intros Hin Hi Hrej. unfold gather. revert rv.
  induction order as [|j order IH]; intros rv; simpl.
  { by apply elem_of_nil in Hin. }
  unfold bind at 1. rewrite receive_task_run.
  destruct (decide (j = i)) as [->|Hne].
  - rewrite decide_True, (receive_chunk_verdict _ _ rv rv0), Hrej by done.
    by eexists _, _.
  - assert (i ∈ order) as Hin' by (by apply elem_of_cons in Hin as [|]).
    case_decide; [|by apply IH].
    destruct (receive_chunk (net j) j rv) as [[[]|e1] rv1]; simpl.
    + by apply IH.
    + by eexists _, _.
Qed.

(** *** Writing the output file *)

Lemma write_chunks_ok (path : string) (idx : list nat) (cs : list (list byte))
    rv (fs : filesystem) :
  Forall2 (λ i c, chunks rv !! i = Some c) idx cs →
  for_each idx (write_chunk path) (rv, fs)
  = (Return tt, (rv, alter (λ f, f ++ concat cs) path fs)).
Proof.
  intros Hall. revert fs.
  induction Hall as [|i c idx cs Hi _ IH]; intros fs; simpl.
  - unfold ret. do 2 f_equal. symmetry. apply alter_id.
    intros. by rewrite app_nil_r.
  - unfold bind at 1, write_chunk at 1. rewrite Hi, IH, alter_alter_eq.
    do 2 f_equal. apply alter_ext. intros f _. simpl. by rewrite <- app_assoc.
Qed.

Lemma write_chunks_missing (path : string) (idx : list nat) rv
    (fs : filesystem) i :
  i ∈ idx → chunks rv !! i = None →
  ∃ fs', for_each idx (write_chunk path) (rv, fs) = (Raised KeyError, (rv, fs')).
Proof.
  intros Hin Hnone. revert fs.
  induction idx as [|j idx IH]; intros fs; simpl.
  { by apply elem_of_nil in Hin. }
  unfold bind at 1, write_chunk at 1.
  destruct (chunks rv !! j) as [c|] eqn:Hj.
  - apply IH. apply elem_of_cons in Hin as [->|]; [congruence|done].
  - by eexists.
Qed.

(** [receive_file] once all tasks have returned and every part
    [0..num_parts-1] is present: the parts are written to the output
    path first, and the checksum of what was written decides. *)
Lemma receive_file_assembled net order rv (fs : filesystem) rv1 fs1 cs :
  gather (receive_tasks net (ports (metadata rv))) order (rv, fs)
    = (Return tt, (rv1, fs1)) →
  Forall2 (λ i c, chunks rv1 !! i = Some c)
    (seq 0 (num_parts (metadata rv1))) cs →
  receive_file net order (rv, fs)
  = let output_path := path_join (output_dir rv1) (filename (metadata rv1)) in
    let fs2 := <[output_path := concat cs]> fs1 in
    if bool_decide (sha256 (concat cs) ≠ checksum (metadata rv1))
    then (Raised (ValueError "Final file checksum mismatch!"), (rv1, fs2))
    else (Return output_path, (rv1, fs2)).
Proof.
  intros Hgather Hparts. unfold receive_file. rewrite Hgather.
  rewrite (write_chunks_ok _ _ cs) by done.
  by rewrite alter_insert_eq, lookup_insert_eq.
Qed.

(** *** The sender's listeners as seen by the receiver *)

Lemma listeners_lookup (cs : list (list byte)) (base_port : Z) (n i : nat) chunk :
  length cs = n → cs !! i = Some chunk →
  send_tasks cs (port_of base_port <$> seq 0 n) !! i
  = Some {| l_chunk_data := chunk; l_port := port_of base_port i; l_chunk_id := i |}.
Proof.
  intros Hlen Hi. unfold send_tasks. rewrite list_lookup_imap.
  assert (i < n) by (rewrite <- Hlen; by eapply lookup_lt_Some).
  rewrite lookup_zip_with, Hi, list_lookup_fmap, lookup_seq_lt by done.
  done.
Qed.

Lemma connect_listener (cs : list (list byte)) (base_port : Z) (n i : nat) chunk
    session av packed :
  length cs = n → cs !! i = Some chunk →
  packb (chunk_metadata chunk i) = Return packed →
  (N.of_nat (length packed) < 2 ^ 32)%N →
  ∃ len4,
    to_bytes4 (length packed) = Return len4 ∧
    connect (send_tasks cs (port_of base_port <$> seq 0 n))
            session (port_of base_port i) av
    = Some (Connected (len4 ++ packed ++ chunk) av).
Proof.
  intros Hlen Hi Hpack Hshort. unfold connect.
  destruct (handle_client_sent chunk i session packed Hpack Hshort)
    as (len4 & s' & Hlen4 & Hsent).
  exists len4. split; [done|].
  assert (list_find (λ l, l_port l = port_of base_port i)
            (send_tasks cs (port_of base_port <$> seq 0 n))
          = Some (i, {| l_chunk_data := chunk; l_port := port_of base_port i;
                        l_chunk_id := i |})) as ->.
  { apply list_find_Some. split; [by apply listeners_lookup|].
    split; [done|]. intros j y Hy Hj.
    destruct (cs !! j) as [cj|] eqn:Hcj.
    - rewrite (listeners_lookup _ _ _ _ cj) in Hy by done.
      injection Hy as <-. simpl. unfold port_of. lia.
    - apply lookup_ge_None in Hcj. apply lookup_lt_Some in Hi. lia. }
  simpl. by rewrite Hsent.
Qed.

End engine.

End framing.

(** ** Sender and receiver composed *)

Section round_trip.
Import Apitran.
Context `{Hashlib, Msgpack, Pathlib}.

Lemma split_chunks_length F n : length (split_chunks F (length F) n) = n.
Proof. unfold split_chunks. by rewrite length_fmap, length_seq. Qed.

Lemma honest_network F n base_port session avs :
  codec_ok F n →
  ∃ conns,
    network (send_tasks (split_chunks F (length F) n)
               (port_of base_port <$> seq 0 n))
            session (port_of base_port <$> seq 0 n) avs
    = Some conns ∧
    ∀ i chunk, split_chunks F (length F) n !! i = Some chunk →
      ∃ len4 packed,
        conns !! i = Some (Connected (len4 ++ packed ++ chunk) (avs i)) ∧
        to_bytes4 (length packed) = Return len4 ∧
        unpackb packed = Return (chunk_metadata chunk i).
Proof.
  intros Hcodec. unfold network.
  set (listeners := send_tasks _ _).
  set (f := λ '(i, port), connect listeners session port (avs i)).
  set (targets := imap _ _).
  assert (∀ i chunk, split_chunks F (length F) n !! i = Some chunk →
            targets !! i = Some (i, port_of base_port i) ∧
            ∃ len4 packed,
              f (i, port_of base_port i)
                = Some (Connected (len4 ++ packed ++ chunk) (avs i)) ∧
              to_bytes4 (length packed) = Return len4 ∧
              unpackb packed = Return (chunk_metadata chunk i)) as Hconn.
  { intros i chunk Hi. split.
    - unfold targets. rewrite list_lookup_imap, list_lookup_fmap.
      rewrite lookup_seq_lt; [done|].
      apply lookup_lt_Some in Hi. by rewrite split_chunks_length in Hi.
    - destruct (Hcodec i chunk Hi) as (packed & Hpack & Hshort & Hunpack).
      destruct (connect_listener (split_chunks F (length F) n) base_port n i
                  chunk session (avs i) packed) as (len4 & Hlen4 & Hc);
        [apply split_chunks_length|done..|].
      by exists len4, packed. }
  assert (length targets = n) as Htargets
    by (unfold targets; by rewrite length_imap, length_fmap, length_seq).
  destruct (mapM f targets) as [conns|] eqn:HmapM.
  - exists conns. split; [done|]. intros i chunk Hi.
    destruct (Hconn i chunk Hi) as (Ht & len4 & packed & Hf & Hlen4 & Hunpack).
    exists len4, packed. split; [|done].
    apply mapM_Some in HmapM.
    destruct (Forall2_lookup_l _ _ _ _ _ HmapM Ht) as (c & -> & Hc).
    change (f (i, port_of base_port i) = Some c) in Hc. congruence.
  - exfalso. apply eq_None_not_Some in HmapM. apply HmapM.
    apply mapM_is_Some, Forall_lookup. intros i [j port] Ht.
    assert (i < n) as Hi by (rewrite <- Htargets; by eapply lookup_lt_Some).
    rewrite <- (split_chunks_length F n) in Hi.
    apply lookup_lt_is_Some in Hi as [chunk Hchunk].
    destruct (Hconn i chunk Hchunk) as (Ht' & len4 & packed & Hf & _).
    rewrite Ht in Ht'. injection Ht' as -> ->.
    change (is_Some (f (i, port_of base_port i))). by rewrite Hf.
Qed.

(** C1 (round-trip identity).  For every file [F], every number of
    parts [1 ≤ n ≤ 32], every arrival schedule of the bytes on each
    stream and every order in which the receive tasks finish: the
    receiver fed by the sender's listeners returns the output path, the
    file written there is [F] byte for byte, and the digest in the
    sender's descriptor is the digest the receiver computes over the
    file it has written. *)
Theorem round_trip_identity (name : string) (F : list byte)
    (n : nat) (base_port : Z) (dir : string) (avs : nat → list nat)
    (order : list nat) (fs : filesystem) :
  1 ≤ n ≤ 32 →
  order ≡ₚ seq 0 n →
  codec_ok F n →
  ∃ d listeners sender rv fs',
    send_file (AirTransSender_init name F n base_port)
      = (Return (d, listeners), sender) ∧
    transfer name F n base_port dir avs order fs
      = Some (Return (path_join dir name), (rv, fs')) ∧
    fs' !! path_join dir name = Some F ∧
    checksum d = sha256 F ∧
    sha256 (default [] (fs' !! path_join dir name)) = checksum d.
Proof.
  intros [Hn _] Hperm Hcodec.
  assert ((n =? 0) = false) as Hn0 by (apply Nat.eqb_neq; lia).
  unfold transfer, send_file, AirTransSender_init.
  cbn [snd_name snd_file snd_num_parts snd_base_port snd_ports snd_filesize
       snd_session]. rewrite Hn0. cbn [default ports].
  set (d := {| filename := name; filesize := length F;
               ports := port_of base_port <$> seq 0 n;
               num_parts := n; checksum := sha256 F |}).
  cbn [default snd_session].
  destruct (honest_network F n base_port (TransferSession_init d) avs Hcodec)
    as (conns & Hnet & Hconns).
  set (net := λ i, default Refused (conns !! i)).
  set (part := λ i, default [] (split_chunks F (length F) n !! i)).
  assert (∀ i, i ∈ order → i < n) as Horder.
  { intros i Hi. rewrite Hperm in Hi. apply elem_of_seq in Hi. lia. }
  destruct (gather_accepts net (ports d) part order
              (AirTransReceiver_init d dir) fs) as (rv1 & Hgather & Hparts).
  { intros i Hi%Horder. split.
    { simpl. by rewrite length_fmap, length_seq. }
    intros rv.
    assert (is_Some (split_chunks F (length F) n !! i)) as [chunk Hchunk]
      by (apply lookup_lt_is_Some; by rewrite split_chunks_length).
    destruct (Hconns i chunk Hchunk) as (len4 & packed & Hc & Hlen4 & Hunpack).
    destruct (receive_chunk_framed len4 packed chunk (chunk_metadata chunk i)
                (avs i) i rv) as (rv' & Hrun & _ & _ & Hstore); [done..|].
    exists rv'. unfold net, part. by rewrite Hc, Hchunk. }
  pose proof (gather_frame _ _ _ _ _ _ _ _ Hgather) as (_ & Hmeta & Hdir).
  cbn [metadata output_dir AirTransReceiver_init] in Hmeta, Hdir.
  eexists d, _, _, rv1, (<[path_join dir name := F]> fs).
  split; [done|]. split; [|by rewrite lookup_insert_eq].
  cbv [id]. rewrite Hnet. cbn [mbind option_bind]. fold net. f_equal.
  rewrite (receive_file_assembled net order (AirTransReceiver_init d dir)
             fs rv1 fs (split_chunks F (length F) n) Hgather).
  - rewrite Hmeta, Hdir, split_chunks_concat by done. cbn [checksum filename d].
    by rewrite bool_decide_false by naive_solver.
  - rewrite Hmeta. cbn [num_parts d].
    apply Forall2_same_length_lookup. split.
    { by rewrite length_seq, split_chunks_length. }
    intros i j chunk [-> Hi]%lookup_seq Hchunk. simpl.
    rewrite Hparts, decide_True.
    + unfold part. by rewrite Hchunk.
    + rewrite Hperm. apply elem_of_seq. lia.
Qed.

End round_trip.

(** ** Integrity checks of the receiver *)

Section integrity.
Import Apitran.
Context `{Hashlib, Msgpack, Pathlib}.

(** What [receive_chunk] does with a stream whose preamble decodes:
    the bytes that the read loop collects are hashed and compared with
    the preamble's [checksum]; the part is stored, under the index of
    the task, only when they agree. *)
Lemma receive_chunk_connected stream av i rv meta r :
  read_preamble {| buffer := stream; avail := av |} = (Return meta, r) →
  let chunk_data :=
    (read_chunk (S (length (buffer r))) (meta_size meta) i r [] 0 rv).1 in
  ∃ rv',
    metadata rv' = metadata rv ∧ output_dir rv' = output_dir rv ∧
    if decide (sha256 chunk_data = meta_checksum meta)
    then receive_chunk (Connected stream av) i rv = (Return tt, rv') ∧
         chunks rv' = <[i := chunk_data]> (chunks rv)
    else receive_chunk (Connected stream av) i rv
           = (Raised (ValueError
                ("Chunk " +:+ pretty i +:+ " checksum mismatch!")), rv') ∧
         chunks rv' = chunks rv.
Proof.
  intros Hpre chunk_data. unfold receive_chunk. rewrite Hpre.
  subst chunk_data.
  destruct (read_chunk _ _ _ _ _ _ _) as [chunk_data rv1] eqn:Hloop.
  apply read_chunk_frame in Hloop as (Hm & Hd & Hc). cbn [fst].
  case_decide as Hsum.
  - exists (store_chunk i chunk_data rv1).
    rewrite bool_decide_false by naive_solver. simpl. by rewrite Hc.
  - exists rv1. by rewrite bool_decide_true.
Qed.

(** C3 (integrity failures are fatal).  First part: when the digest of
    the payload bytes read from a stream differs from the checksum in the
    stream's preamble, [receive_chunk] raises and the table of stored
    parts is unchanged.  Second part: when all tasks have returned and
    the digest of the parts written in order [0..num_parts-1] differs
    from the descriptor's checksum, [receive_file] raises instead of
    returning the output path. *)
Theorem integrity_failures_fatal :
  (∀ stream av i rv meta r,
     read_preamble {| buffer := stream; avail := av |} = (Return meta, r) →
     sha256 (read_chunk (S (length (buffer r))) (meta_size meta) i r [] 0 rv).1
       ≠ meta_checksum meta →
     ∃ msg rv',
       receive_chunk (Connected stream av) i rv = (Raised (ValueError msg), rv') ∧
       chunks rv' = chunks rv) ∧
  (∀ net order rv (fs : filesystem) rv1 fs1 cs,
     gather (receive_tasks net (ports (metadata rv))) order (rv, fs)
       = (Return tt, (rv1, fs1)) →
     Forall2 (λ i c, chunks rv1 !! i = Some c)
       (seq 0 (num_parts (metadata rv1))) cs →
     sha256 (concat cs) ≠ checksum (metadata rv1) →
     ∃ st, receive_file net order (rv, fs)
           = (Raised (ValueError "Final file checksum mismatch!"), st)).
Proof.
  split.
  - intros stream av i rv meta r Hpre Hsum.
    destruct (receive_chunk_connected stream av i rv meta r Hpre)
      as (rv' & _ & _ & Hrun).
    rewrite decide_False in Hrun by done. destruct Hrun as [-> Hc].
    by eexists _, rv'.
  - intros net order rv fs rv1 fs1 cs Hgather Hparts Hsum.
    rewrite (receive_file_assembled net order rv fs rv1 fs1 cs) by done.
    cbv zeta. rewrite bool_decide_true by done. by eexists.
Qed.

(** A part that is rejected makes the whole [receive_file] raise, with
    the file system untouched. *)
Lemma rejected_part_is_fatal net order rv (fs : filesystem) i e rv0 :
  i ∈ order → i < length (ports (metadata rv)) →
  (receive_chunk (net i) i rv0).1 = Raised e →
  ∃ e' rv', receive_file net order (rv, fs) = (Raised e', (rv', fs)).
Proof.
  intros Hin Hi Hrej.
  destruct (gather_rejects net (ports (metadata rv)) order i e rv0 rv fs)
    as (e' & rv' & Hgather); [done..|].
  exists e', rv'. unfold receive_file. by rewrite Hgather.
Qed.

(** C4, as the code has it.  The preamble's [chunk_id] is never
    compared with anything: two deliveries whose preambles carry the same
    [chunk_id] are both accepted when each payload matches its own
    preamble checksum, and each is stored under the index of the task
    (the position of its port in [ports]) that read it. *)
Theorem same_chunk_id_both_stored stream1 av1 stream2 av2 i j rv
    meta1 r1 meta2 r2 :
  read_preamble {| buffer := stream1; avail := av1 |} = (Return meta1, r1) →
  read_preamble {| buffer := stream2; avail := av2 |} = (Return meta2, r2) →
  meta_chunk_id meta1 = meta_chunk_id meta2 →
  let data1 := (read_chunk (S (length (buffer r1))) (meta_size meta1) i r1 [] 0 rv).1 in
  let data2 := (read_chunk (S (length (buffer r2))) (meta_size meta2) j r2 [] 0 rv).1 in
  sha256 data1 = meta_checksum meta1 →
  sha256 data2 = meta_checksum meta2 →
  ∃ rv1 rv2,
    receive_chunk (Connected stream1 av1) i rv = (Return tt, rv1) ∧
    receive_chunk (Connected stream2 av2) j rv1 = (Return tt, rv2) ∧
    chunks rv2 = <[j := data2]> (<[i := data1]> (chunks rv)).
Proof.
  intros Hpre1 Hpre2 _ data1 data2 Hsum1 Hsum2.
  destruct (receive_chunk_connected stream1 av1 i rv meta1 r1 Hpre1)
    as (rv1 & _ & _ & Hrun1).
  fold data1 in Hrun1. rewrite decide_True in Hrun1 by done.
  destruct Hrun1 as [Hrun1 Hc1].
  destruct (receive_chunk_connected stream2 av2 j rv1 meta2 r2 Hpre2)
    as (rv2 & _ & _ & Hrun2).
  rewrite (read_chunk_data_indep _ _ j j r2 [] 0 rv1 rv) in Hrun2.
  fold data2 in Hrun2. rewrite decide_True in Hrun2 by done.
  destruct Hrun2 as [Hrun2 Hc2].
  exists rv1, rv2. by rewrite Hc2, Hc1.
Qed.

(** C5, as the code has it.  [receive_file] has no temporary file: once
    the tasks have returned it writes the parts straight to
    [output_dir/filename] and only then compares checksums.  If a task
    raised, nothing has been written.  If the parts are all there, the
    file at the output path holds their concatenation whether or not
    the checksum agrees; [receive_file] returns the path when it does
    and raises when it does not. *)
Theorem output_written_before_verification net order rv (fs : filesystem) :
  (∀ e st,
     gather (receive_tasks net (ports (metadata rv))) order (rv, fs)
       = (Raised e, st) →
     receive_file net order (rv, fs) = (Raised e, st) ∧ st.2 = fs) ∧
  (∀ rv1 fs1 cs,
     gather (receive_tasks net (ports (metadata rv))) order (rv, fs)
       = (Return tt, (rv1, fs1)) →
     Forall2 (λ i c, chunks rv1 !! i = Some c)
       (seq 0 (num_parts (metadata rv1))) cs →
     let output_path := path_join (output_dir rv) (filename (metadata rv)) in
     ∃ o, receive_file net order (rv, fs)
            = (o, (rv1, <[output_path := concat cs]> fs)) ∧
          o = if decide (sha256 (concat cs) = checksum (metadata rv))
              then Return output_path
              else Raised (ValueError "Final file checksum mismatch!")).
Proof.
  split.
  - intros e [rv' fs'] Hgather. unfold receive_file. rewrite Hgather.
    split; [done|]. by apply gather_frame in Hgather as (-> & _).
  - intros rv1 fs1 cs Hgather Hparts output_path.
    rewrite (receive_file_assembled net order rv fs rv1 fs1 cs) by done.
    apply gather_frame in Hgather as (-> & -> & ->). cbv zeta.
    fold output_path. case_decide as Hsum.
    + rewrite bool_decide_false by naive_solver. by eexists.
    + rewrite bool_decide_true by done. by eexists.
Qed.

End integrity.

(** ** The session service *)

Section session_service.
Import App.
Context `{Hashlib, Floats}.









(** *** Whole-file checksum *)

Lemma read_buffer_pos : 0 < Utils.read_buffer.
Proof. unfold Utils.read_buffer. lia. Qed.

Lemma hash_blocks_all fuel (f hash_obj : list byte) :
  length f < fuel → Utils.hash_blocks fuel f hash_obj = hash_obj ++ f.
Proof.
  revert f hash_obj.
  induction fuel as [|fuel IH]; intros f hash_obj Hfuel; [lia|].
  cbn [Utils.hash_blocks file_read].
  pose proof read_buffer_pos as Hpos.
  generalize dependent Utils.read_buffer. intros n Hn.
  destruct (take n f) as [|b chunk] eqn:Hchunk.
  - destruct f; [by rewrite app_nil_r|]. destruct n; [lia|done].
  - assert (length f = length (b :: chunk) + length (drop n f)) as Hlen
      by (by rewrite <- Hchunk, <- length_app, take_drop).
    simpl in Hlen. rewrite IH by lia.
    by rewrite <- app_assoc, <- Hchunk, take_drop.
Qed.

Lemma calculate_file_checksum_spec disk filepath data :
  disk filepath = Return data →
  Utils.calculate_file_checksum disk filepath = Return (sha256 data).
Proof.
  intros Hdisk. unfold Utils.calculate_file_checksum.
  rewrite Hdisk, hash_blocks_all by lia. done.
Qed.

(** *** [sum] over the per-chunk counters *)

Lemma py_sum_insert_fresh (m : gmap pykey json) k v :
  m !! k = None →
  py_sum (<[k := v]> m)
  = match py_sum m, as_int v with
    | Return a, Some z => Return (a + z)%Z
    | Raised e, _ => Raised e
    | _, None => Raised TypeError
    end.
Proof.
  intros Hk. unfold py_sum. rewrite map_fold_insert_L; [done| |done].
  intros j1 j2 z1 z2 y _ _ _.
  destruct y as [a|e], (as_int z1), (as_int z2); try done.
  f_equal. lia.
Qed.

(** Writing counter [k] replaces its old contribution by the new one. *)
Lemma py_sum_insert (m : gmap pykey json) k v z total :
  py_sum m = Return total → as_int v = Some z →
  py_sum (<[k := v]> m)
  = Return (total - default 0 (m !! k ≫= as_int) + z)%Z.
Proof.
  intros Hsum Hv. destruct (m !! k) as [old|] eqn:Hk; simpl.
  - rewrite <- (insert_delete_eq m), py_sum_insert_fresh, Hv
      by apply lookup_delete_eq.
    rewrite <- (insert_delete_id m k old Hk), py_sum_insert_fresh in Hsum
      by apply lookup_delete_eq.
    destruct (py_sum (delete k m)) as [a|e], (as_int old) as [zo|];
      try done.
    simpl. injection Hsum as <-. f_equal. lia.
  - rewrite py_sum_insert_fresh, Hsum, Hv by done. f_equal. lia.
Qed.

(** What a well-formed update does.  C10 and the corrected C8 are read
    off from it. *)
Lemma update_progress_ok session_id data sessions session chunk_id key
    bytes_transferred b total filesize fsz :
  sessions !! session_id = Some session →
  py_get data "chunk_id" = Return chunk_id →
  py_get data "bytes_transferred" = Return bytes_transferred →
  is_none chunk_id = false →
  to_key chunk_id = Return key →
  as_int bytes_transferred = Some b →
  py_sum (progress session) = Return total →
  py_getitem (metadata session) "filesize" = Return filesize →
  as_int filesize = Some fsz →
  let total' := (total - default 0 (progress session !! key ≫= as_int) + b)%Z in
  update_progress session_id data sessions
  = (Updated,
     <[session_id :=
         set_status (if (fsz <=? total')%Z then "completed" else "transferring")
           (set_progress key bytes_transferred session)]> sessions) ∧
  py_sum (<[key := bytes_transferred]> (progress session)) = Return total'.
Proof.
  intros Hs Hc Hb Hnone Hkey Hint Hsum Hfile Hfsz total'.
  pose proof (py_sum_insert _ key _ _ _ Hsum Hint) as Hsum'.
  split; [|done]. unfold update_progress.
  rewrite Hs, Hc, Hb, Hnone, Hkey.
  assert (is_none bytes_transferred = false) as ->
    by (by destruct bytes_transferred).
  cbn [orb set_progress progress metadata].
  rewrite Hsum', Hfile, Hfsz, insert_insert_eq. fold total'.
  by destruct (fsz <=? total')%Z.
Qed.

(** C10 (progress updates alone move the state).  An update that is
    answered 200 stores the reported counter, recomputes the sum of the
    counters and sets the status from that sum alone: ["completed"]
    exactly when the sum is at least [filesize], ["transferring"]
    exactly when it is smaller.  No checksum enters: [update_progress]
    reads neither the file system nor a digest.  In particular a session
    that was ["completed"] goes back to ["transferring"] when the new
    sum is below [filesize]. *)
Theorem update_progress_sets_status session_id data sessions session
    chunk_id key bytes_transferred b total filesize fsz :
  sessions !! session_id = Some session →
  py_get data "chunk_id" = Return chunk_id →
  py_get data "bytes_transferred" = Return bytes_transferred →
  is_none chunk_id = false →
  to_key chunk_id = Return key →
  as_int bytes_transferred = Some b →
  py_sum (progress session) = Return total →
  py_getitem (metadata session) "filesize" = Return filesize →
  as_int filesize = Some fsz →
  let total' := (total - default 0 (progress session !! key ≫= as_int) + b)%Z in
  ∃ session',
    update_progress session_id data sessions
    = (Updated, <[session_id := session']> sessions) ∧
    py_sum (progress session') = Return total' ∧
    metadata session' = metadata session ∧
    (status session' = "completed" ↔ (fsz ≤ total')%Z) ∧
    (status session' = "transferring" ↔ (total' < fsz)%Z) ∧
    (status session = "completed" → (total' < fsz)%Z →
     status session' = "transferring").
Proof.
  intros Hs Hc Hb Hnone Hkey Hint Hsum Hfile Hfsz total'.
  destruct (update_progress_ok session_id data sessions session chunk_id key
              bytes_transferred b total filesize fsz) as [Hrun Hsum'];
    [done..|].
  fold total' in Hrun, Hsum'. eexists. split; [exact Hrun|].
  destruct (Z.leb_spec fsz total'); simpl; (split; [done|]);
    (split; [done|]); repeat split; try done; try lia.
Qed.

(** C8, as the code has it.  The total that [/progress] reports is the
    sum of the counters as they were last written: after an update of
    counter [key] it is the previous total, minus the previous value of
    that counter, plus the reported value.  Nothing relates it to
    [filesize]. *)
Theorem progress_total_is_sum session_id data sessions session
    chunk_id key bytes_transferred b total filesize fsz pct num_parts :
  sessions !! session_id = Some session →
  py_get data "chunk_id" = Return chunk_id →
  py_get data "bytes_transferred" = Return bytes_transferred →
  is_none chunk_id = false →
  to_key chunk_id = Return key →
  as_int bytes_transferred = Some b →
  py_sum (progress session) = Return total →
  py_getitem (metadata session) "filesize" = Return filesize →
  as_int filesize = Some fsz →
  py_getitem (metadata session) "num_parts" = Return num_parts →
  let total' := (total - default 0 (progress session !! key ≫= as_int) + b)%Z in
  percentage_of total' fsz = Return pct →
  ∃ sessions' st,
    update_progress session_id data sessions = (Updated, sessions') ∧
    get_progress session_id sessions'
    = Progress session_id st (<[key := bytes_transferred]> (progress session))
        total' filesize pct num_parts.
Proof.
  intros Hs Hc Hb Hnone Hkey Hint Hsum Hfile Hfsz Hparts total' Hpct.
  destruct (update_progress_ok session_id data sessions session chunk_id key
              bytes_transferred b total filesize fsz) as [Hrun Hsum'];
    [done..|].
  fold total' in Hrun, Hsum'. eexists _, _. split; [exact Hrun|].
  unfold get_progress. rewrite lookup_insert_eq.
  cbn [set_status set_progress progress metadata status].
  by rewrite Hsum', Hfile, Hfsz, Hpct, Hparts.
Qed.


End session_service.

(** ** Peer tables *)

Section discovery.
Import Discovery.
Open Scope Q_scope.

Lemma Qgtb_spec (a b : Q) : Is_true (Qgtb a b) ↔ b < a.
Proof.
  unfold Qgtb. rewrite negb_True, Is_true_true, Qle_bool_iff.
  split; [apply Qnot_le_lt|apply Qlt_not_le].
Qed.

Lemma Qltb_spec (a b : Q) : Is_true (Qltb a b) ↔ a < b.
Proof. apply Qgtb_spec. Qed.

(** The broadcast variant returns exactly the records seen at most 30 s
    ago and leaves exactly those in the table. *)
Lemma get_peers_spec now (peers : gmap pykey Peer) :
  (∀ k p, (get_peers now peers).2 !! k = Some p
          ↔ peers !! k = Some p ∧ now - last_seen p <= peer_timeout) ∧
  (∀ p, p ∈ (get_peers now peers).1
        ↔ ∃ k, peers !! k = Some p ∧ now - last_seen p <= peer_timeout).
Proof.
  assert (∀ k p, (get_peers now peers).2 !! k = Some p
                 ↔ peers !! k = Some p ∧ now - last_seen p <= peer_timeout)
    as Htable.
  { intros k p. unfold get_peers. cbn [snd].
    rewrite lookup_foldr_delete_Some. split.
    - intros [Hnot Hk]. split; [done|].
      apply Qnot_lt_le. intros Hstale. apply Hnot.
      apply list_elem_of_fmap. exists (k, p). split; [done|].
      apply list_elem_of_filter. split; [by apply Qgtb_spec|].
      by apply elem_of_map_to_list.
    - intros [Hk Hlive]. split; [|done].
      intros ([k' p'] & -> & [Hstale Hin]%list_elem_of_filter)%list_elem_of_fmap.
      apply elem_of_map_to_list in Hin. simpl in Hin, Hk.
      assert (p' = p) as -> by congruence.
      apply Qgtb_spec in Hstale. by apply Qlt_not_le in Hstale. }
  split; [done|]. intros p. unfold get_peers at 1. cbn [fst].
  rewrite list_elem_of_fmap. split.
  - intros ([k p'] & -> & Hin%elem_of_map_to_list). exists k.
    by apply Htable.
  - intros (k & Hk). exists (k, p). split; [done|].
    apply elem_of_map_to_list. by apply Htable.
Qed.

(** C9, as the code has it.  [PeerDiscovery.get_peers] returns exactly
    the records with [now - last_seen ≤ 30] and deletes every record
    with [now - last_seen > 30] from its table.
    [MulticastDiscovery.get_peers] deletes nothing: its table is left as
    it was, and of the records in it the call returns every one with
    [now - last_seen < 30] and none with [now - last_seen > 30]. *)
Theorem peer_liveness now (peers : gmap pykey Peer)
    (mpeers : gmap pykey MulticastPeer) :
  (∀ p, p ∈ (get_peers now peers).1
        ↔ ∃ k, peers !! k = Some p ∧ now - last_seen p <= 30) ∧
  (∀ k p, peers !! k = Some p → 30 < now - last_seen p →
          (get_peers now peers).2 !! k = None) ∧
  (∀ k p, peers !! k = Some p → now - last_seen p <= 30 →
          (get_peers now peers).2 !! k = Some p) ∧
  (multicast_get_peers now mpeers).2 = mpeers ∧
  (∀ p, p ∈ (multicast_get_peers now mpeers).1 →
        ∃ k, mpeers !! k = Some p ∧ ¬ 30 < now - m_last_seen p) ∧
  (∀ k p, mpeers !! k = Some p → now - m_last_seen p < 30 →
          p ∈ (multicast_get_peers now mpeers).1).
Proof.
  destruct (get_peers_spec now peers) as [Htable Hlist].
  split; [done|]. split; [|split; [|split; [done|split]]].
  - intros k p Hk Hstale.
    destruct ((get_peers now peers).2 !! k) as [p'|] eqn:Hk'; [|done].
    apply Htable in Hk' as [Hk' Hlive].
    assert (p' = p) as -> by congruence.
    by apply Qlt_not_le in Hstale.
  - intros k p Hk Hlive. by apply Htable.
  - intros p. unfold multicast_get_peers. cbn [fst].
    intros [Hlive ([k p'] & -> & Hin%elem_of_map_to_list)%list_elem_of_fmap]%list_elem_of_filter.
    exists k. split; [done|]. apply Qltb_spec in Hlive.
    intros Hstale. exact (Qlt_irrefl 30 (Qlt_trans _ _ _ Hstale Hlive)).
  - intros k p Hk Hlive. unfold multicast_get_peers. cbn [fst].
    apply list_elem_of_filter. split; [by apply Qltb_spec|].
    apply list_elem_of_fmap. exists (k, p). split; [done|].
    by apply elem_of_map_to_list.
Qed.

End discovery.

(** ** The SHA-256 instance agrees with the standard test vectors *)

Example sha256_constants :
  SHA256.K !! 0 = Some 0x428a2f98%N ∧ SHA256.K !! 63 = Some 0xc67178f2%N ∧
  SHA256.H0 !! 0 = Some 0x6a09e667%N ∧ SHA256.H0 !! 7 = Some 0x5be0cd19%N.
Proof. vm_compute. done. Qed.

Example sha256_empty :
  SHA256.hexdigest [] =
  "e3b0c44298fc1c149afbf4c8996fb92427ae41e4649b934ca495991b7852b855".
Proof. vm_compute. reflexivity. Qed.

Example sha256_abc :
  SHA256.hexdigest [x61; x62; x63] =
  "ba7816bf8f01cfea414140de5dae2223b00361a396177a9cb410ff61f20015ad".
Proof. vm_compute. reflexivity. Qed.

Example sha256_two_blocks :
  SHA256.hexdigest ((λ i, default x00 (Byte.of_nat i)) <$> seq 0 100) =
  "bce0aff19cf5aa6a7469a30d61d04e4376e4bbf6381052ee9e7f33925c954d52".
Proof. vm_compute. reflexivity. Qed.

(** ** The MessagePack fragment on a preamble *)

Example msgpack_preamble :
  MessagePack.packb
    {| Apitran.meta_chunk_id := 2; Apitran.meta_size := 300;
       Apitran.meta_checksum := "ab" |}
  = Return [x83; xa8; x63; x68; x75; x6e; x6b; x5f; x69; x64; x02;
            xa4; x73; x69; x7a; x65; xcd; x01; x2c;
            xa8; x63; x68; x65; x63; x6b; x73; x75; x6d; xa2; x61; x62].
Proof. vm_compute. reflexivity. Qed.

Example msgpack_roundtrip :
  let m := {| Apitran.meta_chunk_id := 7; Apitran.meta_size := 70000;
              Apitran.meta_checksum := SHA256.hexdigest [x41] |} in
  match MessagePack.packb m with
  | Return packed => MessagePack.unpackb packed = Return m
  | Raised _ => False
  end.
Proof. vm_compute. reflexivity. Qed.

(** ** Concrete runs *)

Section concrete_runs.
Import Apitran Sample.
#[local] Existing Instance hashlib_sha256.
#[local] Existing Instance msgpack_impl.
#[local] Existing Instance posix_join.
#[local] Existing Instance exact_floats.

(** Scenario S2 of the specification: ten bytes in three parts. *)
Lemma deterministic_partitioning_witness :
  1 ≤ 3 ∧
  split_chunks ten_bytes (length ten_bytes) 3
    = [[x00; x01; x02]; [x03; x04; x05]; [x06; x07; x08; x09]] ∧
  concat (split_chunks ten_bytes (length ten_bytes) 3) = ten_bytes ∧
  Utils.calculate_chunk_checksums ten_bytes 3
    = Return (sha256 <$> split_chunks ten_bytes (length ten_bytes) 3).
Proof.
  assert (1 ≤ 3) as Hn by lia.
  destruct (deterministic_partitioning (λ i, "part" +:+ pretty i) ∅
              ten_bytes 3 Hn) as (_ & _ & _ & _ & Hcat & _ & Hsums).
  split; [exact Hn|]. split; [reflexivity|]. split; [exact Hcat|exact Hsums].
Defined.

Lemma codec_ok_ten_bytes : codec_ok ten_bytes 3.
Proof.
  intros i chunk Hi.
  destruct i as [|[|[|i]]]; vm_compute in Hi; [| | |discriminate];
    injection Hi as <-;
    (destruct (packb _) as [packed|e] eqn:Hp; vm_compute in Hp;
     [|discriminate]); injection Hp as <-;
    (eexists; split; [reflexivity|]; split; vm_compute; reflexivity).
Qed.

(** The ten bytes sent in three parts, the tasks finishing in the order
    2, 0, 1 and the bytes arriving two and then one at a time. *)
Lemma round_trip_identity_witness :
  1 ≤ 3 ≤ 32 ∧ [2; 0; 1] ≡ₚ seq 0 3 ∧ codec_ok ten_bytes 3 ∧
  ∃ rv fs',
    transfer "f.bin" ten_bytes 3 5001 "/tmp/airtrans" (λ _, [2; 1]) [2; 0; 1] ∅
      = Some (Return "/tmp/airtrans/f.bin", (rv, fs')) ∧
    fs' !! "/tmp/airtrans/f.bin" = Some ten_bytes.
Proof.
  assert (1 ≤ 3 ≤ 32) as Hn by lia.
  assert ([2; 0; 1] ≡ₚ seq 0 3) as Hperm
    by apply (Permutation_cons_append [0; 1] 2).
  destruct (round_trip_identity "f.bin" ten_bytes 3 5001 "/tmp/airtrans"
              (λ _, [2; 1]) [2; 0; 1] ∅ Hn Hperm codec_ok_ten_bytes)
    as (d & listeners & sender & rv & fs' & _ & Hrun & Hfile & _).
  split; [exact Hn|]. split; [exact Hperm|]. split; [exact codec_ok_ten_bytes|].
  exists rv, fs'. split; [exact Hrun|exact Hfile].
Defined.

(** A payload that does not match its preamble, and a descriptor whose
    checksum is not that of the file. *)
Lemma integrity_failures_fatal_witness :
  (∃ msg rv',
     receive_chunk (Connected tampered []) 0 (receiver "").1
       = (Raised (ValueError msg), rv') ∧
     chunks rv' = chunks (receiver "").1) ∧
  (∃ st, receive_file (peer 0 1) [1; 0] (receiver "00")
         = (Raised (ValueError "Final file checksum mismatch!"), st)).
Proof.
  destruct integrity_failures_fatal as [Hpart Hfile]. split.
  - apply (Hpart tampered [] 0 (receiver "").1 (chunk_metadata [x41] 0)
             {| buffer := [x42]; avail := [] |}).
    + vm_compute. reflexivity.
    + vm_compute. discriminate.
  - apply (Hfile (peer 0 1) [1; 0] (receiver "00").1 (receiver "00").2
             (gather (receive_tasks (peer 0 1) [5001; 5002]%Z) [1; 0]
                (receiver "00")).2.1
             (gather (receive_tasks (peer 0 1) [5001; 5002]%Z) [1; 0]
                (receiver "00")).2.2
             [[x41]; [x42]]).
    + vm_compute. reflexivity.
    + vm_compute. repeat constructor.
    + vm_compute. discriminate.
Defined.

(** C4 fails as stated: both streams announce chunk 0, yet the
    transfer succeeds and the file is assembled from both. *)
Lemma duplicate_chunk_id_accepted :
  (read_preamble {| buffer := frame 0 [x41] [x41]; avail := [] |}).1
    = Return (chunk_metadata [x41] 0) ∧
  (read_preamble {| buffer := frame 0 [x42] [x42]; avail := [2; 1] |}).1
    = Return (chunk_metadata [x42] 0) ∧
  (receive_file (peer 0 0) [0; 1] (receiver (sha256 [x41; x42]))).1
    = Return "/tmp/airtrans/f.bin" ∧
  (receive_file (peer 0 0) [0; 1] (receiver (sha256 [x41; x42]))).2.2
    !! "/tmp/airtrans/f.bin" = Some [x41; x42].
Proof. split; [|split; [|split]]; vm_compute; reflexivity. Qed.

Lemma same_chunk_id_both_stored_witness :
  ∃ rv1 rv2,
    receive_chunk (peer 0 0 0) 0 (receiver "").1 = (Return tt, rv1) ∧
    receive_chunk (peer 0 0 1) 1 rv1 = (Return tt, rv2) ∧
    chunks rv2 = <[1 := [x42]]> (<[0 := [x41]]> (chunks (receiver "").1)).
Proof.
  apply (same_chunk_id_both_stored (frame 0 [x41] [x41]) []
           (frame 0 [x42] [x42]) [2; 1] 0 1 (receiver "").1
           (chunk_metadata [x41] 0) {| buffer := [x41]; avail := [] |}
           (chunk_metadata [x42] 0) {| buffer := [x42]; avail := [2; 1] |});
    vm_compute; reflexivity.
Defined.

(** C5 fails as stated: with a descriptor whose checksum is wrong the
    receiver raises, and the reassembled bytes are at the final path. *)
Lemma unverified_output_in_place :
  (receive_file (peer 0 1) [0; 1] (receiver "00")).1
    = Raised (ValueError "Final file checksum mismatch!") ∧
  (receiver "00").2 !! "/tmp/airtrans/f.bin" = None ∧
  (receive_file (peer 0 1) [0; 1] (receiver "00")).2.2
    !! "/tmp/airtrans/f.bin" = Some [x41; x42].
Proof. split; [|split]; vm_compute; reflexivity. Qed.

Lemma output_written_before_verification_witness :
  (receive_file (λ _, Connected tampered []) [0; 1] (receiver "")).2.2
    = (receiver "").2 ∧
  ∃ o rv1,
    receive_file (peer 0 1) [0; 1] (receiver "00")
      = (o, (rv1, <["/tmp/airtrans/f.bin" := [x41; x42]]> ∅)) ∧
    o = Raised (ValueError "Final file checksum mismatch!").
Proof.
  split.
  - destruct (output_written_before_verification (λ _, Connected tampered [])
                [0; 1] (receiver "").1 (receiver "").2) as [Hraise _].
    destruct (Hraise (ValueError "Chunk 0 checksum mismatch!")
                (gather (receive_tasks (λ _, Connected tampered [])
                           [5001; 5002]%Z) [0; 1] (receiver "")).2)
      as [Hrun Hfs].
    + vm_compute. reflexivity.
    + change (receiver "") with ((receiver "").1, (receiver "").2).
      rewrite Hrun. exact Hfs.
  - destruct (output_written_before_verification (peer 0 1) [0; 1]
                (receiver "00").1 (receiver "00").2) as [_ Hwritten].
    destruct (Hwritten
                (gather (receive_tasks (peer 0 1) [5001; 5002]%Z) [0; 1]
                   (receiver "00")).2.1
                (gather (receive_tasks (peer 0 1) [5001; 5002]%Z) [0; 1]
                   (receiver "00")).2.2
                [[x41]; [x42]]) as (o & Hrun & Ho).
    + vm_compute. reflexivity.
    + vm_compute. repeat constructor.
    + eexists o, _. split; [exact Hrun|]. rewrite Ho. reflexivity.
Defined.





(** C8 fails as stated: one update reporting 100 bytes for a file of
    10 bytes, and [/progress] reports a total of 100. *)
Lemma progress_total_exceeds_filesize :
  App.get_progress "sid"
    (App.update_progress "sid"
       (JDict [("chunk_id", JInt 0); ("bytes_transferred", JInt 100)])
       {[ "sid" := session "" "ready" ]}).2
  = App.Progress "sid" "completed" {[ KInt 0 := JInt 100 ]} 100 (JInt 10)
      (1000%Q : @App.pyfloat exact_floats) (JInt 1).
Proof. vm_compute. reflexivity. Qed.

Lemma progress_total_is_sum_witness :
  ∃ sessions' st,
    App.update_progress "sid"
      (JDict [("chunk_id", JInt 0); ("bytes_transferred", JInt 100)])
      {[ "sid" := session "" "ready" ]} = (App.Updated, sessions') ∧
    App.get_progress "sid" sessions'
    = App.Progress "sid" st (<[KInt 0 := JInt 100]> {[ KInt 0 := JInt 0 ]})
        (0 - 0 + 100) (JInt 10) (1000%Q : @App.pyfloat exact_floats) (JInt 1).
Proof.
  apply (progress_total_is_sum "sid"
           (JDict [("chunk_id", JInt 0); ("bytes_transferred", JInt 100)])
           {[ "sid" := session "" "ready" ]} (session "" "ready")
           (JInt 0) (KInt 0) (JInt 100) 100 0 (JInt 10) 10 (1000%Q : @App.pyfloat exact_floats) (JInt 1));
    vm_compute; reflexivity.
Defined.

(** A completed session drops back to transferring on a smaller report. *)
Lemma update_progress_sets_status_witness :
  ∃ session',
    App.update_progress "sid"
      (JDict [("chunk_id", JInt 0); ("bytes_transferred", JInt 4)])
      {[ "sid" := session "" "completed" ]}
    = (App.Updated, <["sid" := session']> {[ "sid" := session "" "completed" ]}) ∧
    App.status session' = "transferring".
Proof.
  destruct (update_progress_sets_status "sid"
              (JDict [("chunk_id", JInt 0); ("bytes_transferred", JInt 4)])
              {[ "sid" := session "" "completed" ]} (session "" "completed")
              (JInt 0) (KInt 0) (JInt 4) 4 0 (JInt 10) 10)
    as (session' & Hrun & _ & _ & _ & _ & Hback); try (vm_compute; reflexivity).
  exists session'. split; [exact Hrun|]. apply Hback; [reflexivity|].
  vm_compute. reflexivity.
Defined.

(** C9 fails as stated: the multicast table keeps a record last seen
    100 s ago. *)
Lemma multicast_keeps_stale_record :
  (30 < 100 - 0)%Q ∧
  is_Some ((Discovery.multicast_get_peers 100 multicast_table).2
             !! KStr "10.0.0.2") ∧
  (Discovery.get_peers 100 broadcast_table).2 !! KStr "10.0.0.2" = None.
Proof.
  split; [reflexivity|]. split; [|vm_compute; reflexivity].
  vm_compute. by eexists.
Qed.

Lemma peer_liveness_witness :
  (Discovery.get_peers 100 broadcast_table).2 !! KStr "10.0.0.2" = None ∧
  (Discovery.multicast_get_peers 100 multicast_table).2 = multicast_table.
Proof.
  destruct (peer_liveness 100 broadcast_table multicast_table)
    as (_ & Hevict & _ & Hkeep & _).
  split; [|exact Hkeep].
  eapply Hevict; [reflexivity|]. vm_compute. reflexivity.
Defined.

End concrete_runs.
